(** * Offline-first data cache store: queue, cache slices and persistence

    A shallow embedding of [useDataCacheStore] (frontend/src/store,
    v2.0 with the Offline Action Queue), together with models of the
    engine operations that the stability report v3.0 describes:
    snapshots, partial sync and conflict tracking. *)

From Stdlib Require Import ZArith Ascii String List Lia.
From stdpp Require Import base list strings pretty gmap.

Local Set Warnings "-register-all".
Local Open Scope string_scope.
Local Open Scope list_scope.
Local Open Scope Z_scope.

(** ** Data model *)

(** Values of TypeScript type [any] that flow through the store: the
    store is persisted with [createJSONStorage], so they are JSON values. *)
Inductive Json : Type :=
  | JNull
  | JBool (b : bool)
  | JNum (n : Z)
  | JStr (s : string)
  | JArr (items : list Json)
  | JObj (fields : list (string * Json)).

(** [type SyncStatus = 'idle' | 'syncing' | 'success' | 'error'] *)
Inductive SyncStatus : Type := Idle | Syncing | Success | SyncFailed.

(** [type OfflineActionType] *)
Inductive OfflineActionType : Type :=
  | cart_add
  | cart_update
  | cart_clear
  | order_create
  | favorite_toggle.

(** [method: 'GET' | 'POST' | 'PUT' | 'PATCH' | 'DELETE'] *)
Inductive HttpMethod : Type := GET | POST | PUT | PATCH | DELETE.

(** [status: 'pending' | 'processing' | 'failed'] *)
Inductive ActionStatus : Type := pending | processing | failed.

Global Instance ActionStatus_eq_dec : EqDecision ActionStatus.
Proof. solve_decision. Defined.

(** [interface OfflineAction]; the optional members [payload?] and
    [errorMessage?] are [None] when the property is missing. *)
Record OfflineAction : Type := mkOfflineAction {
  id : string;
  type : OfflineActionType;
  endpoint : string;
  method : HttpMethod;
  payload : option Json;
  timestamp : Z;
  retryCount : Z;
  maxRetries : Z;
  status : ActionStatus;
  errorMessage : option string
}.

(** [Omit<OfflineAction, 'id' | 'timestamp' | 'retryCount' | 'status'>],
    the argument of [addToOfflineQueue]. *)
Record NewAction : Type := mkNewAction {
  new_type : OfflineActionType;
  new_endpoint : string;
  new_method : HttpMethod;
  new_payload : option Json;
  new_maxRetries : Z;
  new_errorMessage : option string
}.

(** [Partial<OfflineAction>], the second argument of [updateQueueAction]:
    [None] is a property that the object does not carry, [Some v] one it
    carries.  For the two optional members the carried value may itself be
    [undefined], hence the nested option. *)
Record ActionUpdates : Type := mkActionUpdates {
  upd_id : option string;
  upd_type : option OfflineActionType;
  upd_endpoint : option string;
  upd_method : option HttpMethod;
  upd_payload : option (option Json);
  upd_timestamp : option Z;
  upd_retryCount : option Z;
  upd_maxRetries : option Z;
  upd_status : option ActionStatus;
  upd_errorMessage : option (option string)
}.

(** [interface DataCacheState], data members only (the function members
    are the definitions below). *)
Record DataCacheState : Type := mkDataCacheState {
  syncStatus : SyncStatus;
  lastSyncTime : option Z;
  isOnline : bool;
  syncError : option string;
  offlineActionsQueue : list OfflineAction;
  isProcessingQueue : bool;
  carBrands : list Json;
  carModels : list Json;
  productBrands : list Json;
  categories : list Json;
  products : list Json;
  suppliers : list Json;
  distributors : list Json;
  partners : list Json;
  admins : list Json;
  subscribers : list Json;
  customers : list Json;
  orders : list Json
}.

(** The initial state given to [create]. *)
Definition initialState : DataCacheState :=
  {| syncStatus := Idle; lastSyncTime := None; isOnline := true;
     syncError := None;
     offlineActionsQueue := []; isProcessingQueue := false;
     carBrands := []; carModels := []; productBrands := [];
     categories := []; products := []; suppliers := [];
     distributors := []; partners := []; admins := [];
     subscribers := []; customers := []; orders := [] |}.

(** ** Action ids *)

(** What [generateActionId] reads from its environment: the clock
    ([Date.now()]) and the text of [Math.random().toString(36)]. *)
Record IdSource : Type := mkIdSource {
  id_now : Z;
  id_random36 : string
}.

(** [`action_${Date.now()}_${Math.random().toString(36).substr(2, 9)}`] *)
Definition generateActionId (src : IdSource) : string :=
  "action_" +:+ pretty (id_now src) +:+ "_" +:+ substring 2 9 (id_random36 src).

(** ** Offline queue operations

    Each store action [set(...)] is a state transformer; zustand's [set]
    merges the returned partial object into the state, which leaves every
    member that the object does not name as it was. *)

Definition set_offlineActionsQueue (q : list OfflineAction) (s : DataCacheState)
  : DataCacheState :=
  {| syncStatus := syncStatus s; lastSyncTime := lastSyncTime s;
     isOnline := isOnline s; syncError := syncError s;
     offlineActionsQueue := q; isProcessingQueue := isProcessingQueue s;
     carBrands := carBrands s; carModels := carModels s;
     productBrands := productBrands s; categories := categories s;
     products := products s; suppliers := suppliers s;
     distributors := distributors s; partners := partners s;
     admins := admins s; subscribers := subscribers s;
     customers := customers s; orders := orders s |}.

(** The object literal of [addToOfflineQueue]: the spread of the argument
    comes first, then the four members the store fills in.  [now] is the
    second clock reading, [timestamp: Date.now()]. *)
Definition newOfflineAction (src : IdSource) (now : Z) (action : NewAction)
  : OfflineAction :=
  {| type := new_type action; endpoint := new_endpoint action;
     method := new_method action; payload := new_payload action;
     maxRetries := new_maxRetries action;
     errorMessage := new_errorMessage action;
     id := generateActionId src;
     timestamp := now;
     retryCount := 0;
     status := pending |}.

Definition addToOfflineQueue (src : IdSource) (now : Z) (action : NewAction)
  (s : DataCacheState) : DataCacheState :=
  set_offlineActionsQueue
    (offlineActionsQueue s ++ [newOfflineAction src now action]) s.

Definition removeFromOfflineQueue (actionId : string) (s : DataCacheState)
  : DataCacheState :=
  set_offlineActionsQueue
    (filter (λ a, id a ≠ actionId) (offlineActionsQueue s)) s.

(** [{ ...a, ...updates }] *)
Definition mergeUpdates (a : OfflineAction) (updates : ActionUpdates)
  : OfflineAction :=
  {| id := default (id a) (upd_id updates);
     type := default (type a) (upd_type updates);
     endpoint := default (endpoint a) (upd_endpoint updates);
     method := default (method a) (upd_method updates);
     payload := default (payload a) (upd_payload updates);
     timestamp := default (timestamp a) (upd_timestamp updates);
     retryCount := default (retryCount a) (upd_retryCount updates);
     maxRetries := default (maxRetries a) (upd_maxRetries updates);
     status := default (status a) (upd_status updates);
     errorMessage := default (errorMessage a) (upd_errorMessage updates) |}.

Definition updateQueueAction (actionId : string) (updates : ActionUpdates)
  (s : DataCacheState) : DataCacheState :=
  set_offlineActionsQueue
    ((λ a, if decide (id a = actionId) then mergeUpdates a updates else a)
       <$> offlineActionsQueue s) s.

Definition clearOfflineQueue (s : DataCacheState) : DataCacheState :=
  set_offlineActionsQueue [] s.

Definition getQueueLength (s : DataCacheState) : nat :=
  length (offlineActionsQueue s).

(** ** Sync state and cache setters *)

(** [setOnline: (isOnline) => set({ isOnline })] *)
Definition setOnline (online : bool) (s : DataCacheState) : DataCacheState :=
  {| syncStatus := syncStatus s; lastSyncTime := lastSyncTime s;
     isOnline := online; syncError := syncError s;
     offlineActionsQueue := offlineActionsQueue s;
     isProcessingQueue := isProcessingQueue s; carBrands := carBrands s;
     carModels := carModels s; productBrands := productBrands s;
     categories := categories s; products := products s;
     suppliers := suppliers s; distributors := distributors s;
     partners := partners s; admins := admins s;
     subscribers := subscribers s; customers := customers s;
     orders := orders s |}.

(** [setSyncStatus: (status) => set({ syncStatus: status })] *)
Definition setSyncStatus (status : SyncStatus) (s : DataCacheState) : DataCacheState :=
  {| syncStatus := status; lastSyncTime := lastSyncTime s;
     isOnline := isOnline s; syncError := syncError s;
     offlineActionsQueue := offlineActionsQueue s;
     isProcessingQueue := isProcessingQueue s; carBrands := carBrands s;
     carModels := carModels s; productBrands := productBrands s;
     categories := categories s; products := products s;
     suppliers := suppliers s; distributors := distributors s;
     partners := partners s; admins := admins s;
     subscribers := subscribers s; customers := customers s;
     orders := orders s |}.

(** [setSyncError: (error) => set({ syncError: error })] *)
Definition setSyncError (error : option string) (s : DataCacheState) : DataCacheState :=
  {| syncStatus := syncStatus s; lastSyncTime := lastSyncTime s;
     isOnline := isOnline s; syncError := error;
     offlineActionsQueue := offlineActionsQueue s;
     isProcessingQueue := isProcessingQueue s; carBrands := carBrands s;
     carModels := carModels s; productBrands := productBrands s;
     categories := categories s; products := products s;
     suppliers := suppliers s; distributors := distributors s;
     partners := partners s; admins := admins s;
     subscribers := subscribers s; customers := customers s;
     orders := orders s |}.

(** [setLastSyncTime: (time) => set({ lastSyncTime: time })] *)
Definition setLastSyncTime (time : Z) (s : DataCacheState) : DataCacheState :=
  {| syncStatus := syncStatus s; lastSyncTime := Some time;
     isOnline := isOnline s; syncError := syncError s;
     offlineActionsQueue := offlineActionsQueue s;
     isProcessingQueue := isProcessingQueue s; carBrands := carBrands s;
     carModels := carModels s; productBrands := productBrands s;
     categories := categories s; products := products s;
     suppliers := suppliers s; distributors := distributors s;
     partners := partners s; admins := admins s;
     subscribers := subscribers s; customers := customers s;
     orders := orders s |}.

(** [setProcessingQueue: (isProcessing) => set({ isProcessingQueue: isProcessing })] *)
Definition setProcessingQueue (isProcessing : bool) (s : DataCacheState) : DataCacheState :=
  {| syncStatus := syncStatus s; lastSyncTime := lastSyncTime s;
     isOnline := isOnline s; syncError := syncError s;
     offlineActionsQueue := offlineActionsQueue s;
     isProcessingQueue := isProcessing; carBrands := carBrands s;
     carModels := carModels s; productBrands := productBrands s;
     categories := categories s; products := products s;
     suppliers := suppliers s; distributors := distributors s;
     partners := partners s; admins := admins s;
     subscribers := subscribers s; customers := customers s;
     orders := orders s |}.

(** [setCarBrands: (data) => set({ carBrands: data })] *)
Definition setCarBrands (data : list Json) (s : DataCacheState) : DataCacheState :=
  {| syncStatus := syncStatus s; lastSyncTime := lastSyncTime s;
     isOnline := isOnline s; syncError := syncError s;
     offlineActionsQueue := offlineActionsQueue s;
     isProcessingQueue := isProcessingQueue s; carBrands := data;
     carModels := carModels s; productBrands := productBrands s;
     categories := categories s; products := products s;
     suppliers := suppliers s; distributors := distributors s;
     partners := partners s; admins := admins s;
     subscribers := subscribers s; customers := customers s;
     orders := orders s |}.

(** [setCarModels: (data) => set({ carModels: data })] *)
Definition setCarModels (data : list Json) (s : DataCacheState) : DataCacheState :=
  {| syncStatus := syncStatus s; lastSyncTime := lastSyncTime s;
     isOnline := isOnline s; syncError := syncError s;
     offlineActionsQueue := offlineActionsQueue s;
     isProcessingQueue := isProcessingQueue s; carBrands := carBrands s;
     carModels := data; productBrands := productBrands s;
     categories := categories s; products := products s;
     suppliers := suppliers s; distributors := distributors s;
     partners := partners s; admins := admins s;
     subscribers := subscribers s; customers := customers s;
     orders := orders s |}.

(** [setProductBrands: (data) => set({ productBrands: data })] *)
Definition setProductBrands (data : list Json) (s : DataCacheState) : DataCacheState :=
  {| syncStatus := syncStatus s; lastSyncTime := lastSyncTime s;
     isOnline := isOnline s; syncError := syncError s;
     offlineActionsQueue := offlineActionsQueue s;
     isProcessingQueue := isProcessingQueue s; carBrands := carBrands s;
     carModels := carModels s; productBrands := data;
     categories := categories s; products := products s;
     suppliers := suppliers s; distributors := distributors s;
     partners := partners s; admins := admins s;
     subscribers := subscribers s; customers := customers s;
     orders := orders s |}.

(** [setCategories: (data) => set({ categories: data })] *)
Definition setCategories (data : list Json) (s : DataCacheState) : DataCacheState :=
  {| syncStatus := syncStatus s; lastSyncTime := lastSyncTime s;
     isOnline := isOnline s; syncError := syncError s;
     offlineActionsQueue := offlineActionsQueue s;
     isProcessingQueue := isProcessingQueue s; carBrands := carBrands s;
     carModels := carModels s; productBrands := productBrands s;
     categories := data; products := products s; suppliers := suppliers s;
     distributors := distributors s; partners := partners s;
     admins := admins s; subscribers := subscribers s;
     customers := customers s; orders := orders s |}.

(** [setProducts: (data) => set({ products: data })] *)
Definition setProducts (data : list Json) (s : DataCacheState) : DataCacheState :=
  {| syncStatus := syncStatus s; lastSyncTime := lastSyncTime s;
     isOnline := isOnline s; syncError := syncError s;
     offlineActionsQueue := offlineActionsQueue s;
     isProcessingQueue := isProcessingQueue s; carBrands := carBrands s;
     carModels := carModels s; productBrands := productBrands s;
     categories := categories s; products := data; suppliers := suppliers s;
     distributors := distributors s; partners := partners s;
     admins := admins s; subscribers := subscribers s;
     customers := customers s; orders := orders s |}.

(** [setSuppliers: (data) => set({ suppliers: data })] *)
Definition setSuppliers (data : list Json) (s : DataCacheState) : DataCacheState :=
  {| syncStatus := syncStatus s; lastSyncTime := lastSyncTime s;
     isOnline := isOnline s; syncError := syncError s;
     offlineActionsQueue := offlineActionsQueue s;
     isProcessingQueue := isProcessingQueue s; carBrands := carBrands s;
     carModels := carModels s; productBrands := productBrands s;
     categories := categories s; products := products s; suppliers := data;
     distributors := distributors s; partners := partners s;
     admins := admins s; subscribers := subscribers s;
     customers := customers s; orders := orders s |}.

(** [setDistributors: (data) => set({ distributors: data })] *)
Definition setDistributors (data : list Json) (s : DataCacheState) : DataCacheState :=
  {| syncStatus := syncStatus s; lastSyncTime := lastSyncTime s;
     isOnline := isOnline s; syncError := syncError s;
     offlineActionsQueue := offlineActionsQueue s;
     isProcessingQueue := isProcessingQueue s; carBrands := carBrands s;
     carModels := carModels s; productBrands := productBrands s;
     categories := categories s; products := products s;
     suppliers := suppliers s; distributors := data; partners := partners s;
     admins := admins s; subscribers := subscribers s;
     customers := customers s; orders := orders s |}.

(** [setPartners: (data) => set({ partners: data })] *)
Definition setPartners (data : list Json) (s : DataCacheState) : DataCacheState :=
  {| syncStatus := syncStatus s; lastSyncTime := lastSyncTime s;
     isOnline := isOnline s; syncError := syncError s;
     offlineActionsQueue := offlineActionsQueue s;
     isProcessingQueue := isProcessingQueue s; carBrands := carBrands s;
     carModels := carModels s; productBrands := productBrands s;
     categories := categories s; products := products s;
     suppliers := suppliers s; distributors := distributors s;
     partners := data; admins := admins s; subscribers := subscribers s;
     customers := customers s; orders := orders s |}.

(** [setAdmins: (data) => set({ admins: data })] *)
Definition setAdmins (data : list Json) (s : DataCacheState) : DataCacheState :=
  {| syncStatus := syncStatus s; lastSyncTime := lastSyncTime s;
     isOnline := isOnline s; syncError := syncError s;
     offlineActionsQueue := offlineActionsQueue s;
     isProcessingQueue := isProcessingQueue s; carBrands := carBrands s;
     carModels := carModels s; productBrands := productBrands s;
     categories := categories s; products := products s;
     suppliers := suppliers s; distributors := distributors s;
     partners := partners s; admins := data; subscribers := subscribers s;
     customers := customers s; orders := orders s |}.

(** [setSubscribers: (data) => set({ subscribers: data })] *)
Definition setSubscribers (data : list Json) (s : DataCacheState) : DataCacheState :=
  {| syncStatus := syncStatus s; lastSyncTime := lastSyncTime s;
     isOnline := isOnline s; syncError := syncError s;
     offlineActionsQueue := offlineActionsQueue s;
     isProcessingQueue := isProcessingQueue s; carBrands := carBrands s;
     carModels := carModels s; productBrands := productBrands s;
     categories := categories s; products := products s;
     suppliers := suppliers s; distributors := distributors s;
     partners := partners s; admins := admins s; subscribers := data;
     customers := customers s; orders := orders s |}.

(** [setCustomers: (data) => set({ customers: data })] *)
Definition setCustomers (data : list Json) (s : DataCacheState) : DataCacheState :=
  {| syncStatus := syncStatus s; lastSyncTime := lastSyncTime s;
     isOnline := isOnline s; syncError := syncError s;
     offlineActionsQueue := offlineActionsQueue s;
     isProcessingQueue := isProcessingQueue s; carBrands := carBrands s;
     carModels := carModels s; productBrands := productBrands s;
     categories := categories s; products := products s;
     suppliers := suppliers s; distributors := distributors s;
     partners := partners s; admins := admins s;
     subscribers := subscribers s; customers := data; orders := orders s |}.

(** [setOrders: (data) => set({ orders: data })] *)
Definition setOrders (data : list Json) (s : DataCacheState) : DataCacheState :=
  {| syncStatus := syncStatus s; lastSyncTime := lastSyncTime s;
     isOnline := isOnline s; syncError := syncError s;
     offlineActionsQueue := offlineActionsQueue s;
     isProcessingQueue := isProcessingQueue s; carBrands := carBrands s;
     carModels := carModels s; productBrands := productBrands s;
     categories := categories s; products := products s;
     suppliers := suppliers s; distributors := distributors s;
     partners := partners s; admins := admins s;
     subscribers := subscribers s; customers := customers s;
     orders := data |}.

(** ** Persistence *)

(** The object that [partialize] returns: what the [persist] middleware
    serialises into the storage entry ['alghazaly-data-cache'] after
    every [set]. *)
Record PersistedState : Type := mkPersistedState {
  p_lastSyncTime : option Z;
  p_offlineActionsQueue : list OfflineAction;
  p_carBrands : list Json;
  p_carModels : list Json;
  p_productBrands : list Json;
  p_categories : list Json;
  p_products : list Json;
  p_suppliers : list Json;
  p_distributors : list Json
}.

Definition partialize (state : DataCacheState) : PersistedState :=
  {| p_lastSyncTime := lastSyncTime state;
     p_offlineActionsQueue := offlineActionsQueue state;
     p_carBrands := carBrands state;
     p_carModels := carModels state;
     p_productBrands := productBrands state;
     p_categories := categories state;
     p_products := products state;
     p_suppliers := suppliers state;
     p_distributors := distributors state |}.

(** ** Resource types

    The twelve cache members of [DataCacheState], as a tag, with the
    member read ([state[name]]), the member's setter and the member read
    on the persisted object (where a member that [partialize] does not
    copy is missing). *)
Inductive Resource : Type :=
  | CarBrands | CarModels | ProductBrands | Categories | Products
  | Suppliers | Distributors | Partners | Admins | Subscribers
  | Customers | Orders.

Global Instance Resource_eq_dec : EqDecision Resource.
Proof. solve_decision. Defined.

Definition resourceName (r : Resource) : string :=
  match r with
  | CarBrands => "carBrands" | CarModels => "carModels"
  | ProductBrands => "productBrands" | Categories => "categories"
  | Products => "products" | Suppliers => "suppliers"
  | Distributors => "distributors" | Partners => "partners"
  | Admins => "admins" | Subscribers => "subscribers"
  | Customers => "customers" | Orders => "orders"
  end.

Definition cached (r : Resource) (s : DataCacheState) : list Json :=
  match r with
  | CarBrands => carBrands s | CarModels => carModels s
  | ProductBrands => productBrands s | Categories => categories s
  | Products => products s | Suppliers => suppliers s
  | Distributors => distributors s | Partners => partners s
  | Admins => admins s | Subscribers => subscribers s
  | Customers => customers s | Orders => orders s
  end.

Definition setCached (r : Resource) : list Json → DataCacheState → DataCacheState :=
  match r with
  | CarBrands => setCarBrands | CarModels => setCarModels
  | ProductBrands => setProductBrands | Categories => setCategories
  | Products => setProducts | Suppliers => setSuppliers
  | Distributors => setDistributors | Partners => setPartners
  | Admins => setAdmins | Subscribers => setSubscribers
  | Customers => setCustomers | Orders => setOrders
  end.

Definition persisted (r : Resource) (p : PersistedState) : option (list Json) :=
  match r with
  | CarBrands => Some (p_carBrands p) | CarModels => Some (p_carModels p)
  | ProductBrands => Some (p_productBrands p)
  | Categories => Some (p_categories p)
  | Products => Some (p_products p) | Suppliers => Some (p_suppliers p)
  | Distributors => Some (p_distributors p)
  | Partners | Admins | Subscribers | Customers | Orders => None
  end.

(** The members that [partialize] copies. *)
Definition isPersisted (r : Resource) : bool :=
  match r with
  | CarBrands | CarModels | ProductBrands | Categories | Products
  | Suppliers | Distributors => true
  | Partners | Admins | Subscribers | Customers | Orders => false
  end.

(** ** Sequences of queue operations *)

Inductive QueueOp : Type :=
  | Enqueue (src : IdSource) (now : Z) (action : NewAction)
  | Remove (actionId : string)
  | Update (actionId : string) (updates : ActionUpdates)
  | Clear.

Definition applyOp (op : QueueOp) : DataCacheState → DataCacheState :=
  match op with
  | Enqueue src now action => addToOfflineQueue src now action
  | Remove actionId => removeFromOfflineQueue actionId
  | Update actionId updates => updateQueueAction actionId updates
  | Clear => clearOfflineQueue
  end.

(** Operations are applied from the head of the list on. *)
Definition applyOps (ops : list QueueOp) (s : DataCacheState) : DataCacheState :=
  foldl (λ st op, applyOp op st) s ops.

(** One call of [addToOfflineQueue] with what it reads from the clock and
    the random generator. *)
Record EnqueueCall : Type := mkEnqueueCall {
  call_src : IdSource;
  call_now : Z;
  call_action : NewAction
}.

Definition created (c : EnqueueCall) : OfflineAction :=
  newOfflineAction (call_src c) (call_now c) (call_action c).

Definition enqueueAll (calls : list EnqueueCall) (s : DataCacheState)
  : DataCacheState :=
  foldl (λ st c, addToOfflineQueue (call_src c) (call_now c) (call_action c) st)
        s calls.

(** The retry bound of the data model: a pending action has not used more
    than its [maxRetries]. *)
Definition withinRetryBound (a : OfflineAction) : Prop :=
  status a = pending → retryCount a ≤ maxRetries a.

Global Instance withinRetryBound_dec a : Decision (withinRetryBound a).
Proof. unfold withinRetryBound. apply _. Defined.

(** Every member of the state other than the queue is the same in [s]
    and [s']. *)
Definition sameOutsideQueue (s s' : DataCacheState) : Prop :=
  s' = set_offlineActionsQueue (offlineActionsQueue s') s.

(** The discipline under which the retry bound survives an operation:
    the store takes [maxRetries] from the caller on enqueue, and on update
    writes whatever the caller supplies for the matching actions. *)
Definition keepsRetryBound (op : QueueOp) (s : DataCacheState) : Prop :=
  match op with
  | Enqueue _ _ action => 0 ≤ new_maxRetries action
  | Update actionId updates =>
      ∀ a, a ∈ offlineActionsQueue s → id a = actionId →
           withinRetryBound (mergeUpdates a updates)
  | Remove _ | Clear => True
  end.

Fixpoint opsKeepRetryBound (ops : list QueueOp) (s : DataCacheState) : Prop :=
  match ops with
  | [] => True
  | op :: rest => keepsRetryBound op s ∧ opsKeepRetryBound rest (applyOp op s)
  end.

(** The ids of the queued actions, head first. *)
Definition queueIds (s : DataCacheState) : list string :=
  id <$> offlineActionsQueue s.

(** Whether an operation writes the [id] member of an action. *)
Definition writesId (op : QueueOp) : Prop :=
  match op with
  | Update _ updates => upd_id updates ≠ None
  | Enqueue _ _ _ | Remove _ | Clear => False
  end.

(** Texts without the separator of [generateActionId]. *)
Fixpoint noUnderscore (s : string) : Prop :=
  match s with
  | EmptyString => True
  | String c rest => c ≠ "_"%char ∧ noUnderscore rest
  end.

(** ** Sample values *)

Definition sampleSource : IdSource :=
  mkIdSource 1700000000000 "0.4fzyo82mvyr".

Definition sampleNew : NewAction :=
  mkNewAction cart_add "/cart/add" POST
    (Some (JObj [("product_id", JStr "p1"); ("quantity", JNum 1)])) 3 None.

Definition sampleUpdateNew : NewAction :=
  mkNewAction cart_update "/cart/update" PUT
    (Some (JObj [("product_id", JStr "p1"); ("quantity", JNum 3)])) 3 None.

Definition sampleAction : OfflineAction :=
  newOfflineAction sampleSource 1700000000001 sampleNew.

(** The initial store after one [addToOfflineQueue]. *)
Definition sampleState : DataCacheState :=
  addToOfflineQueue sampleSource 1700000000001 sampleNew initialState.

(** [{ retryCount: 5 }] *)
Definition fiveRetries : ActionUpdates :=
  mkActionUpdates None None None None None None (Some 5) None None None.

(** [{ status: 'failed', errorMessage: 'HTTP 500' }] *)
Definition markedFailed : ActionUpdates :=
  mkActionUpdates None None None None None None None None (Some failed)
    (Some (Some "HTTP 500")).

(** [{ status: 'pending' }] *)
Definition backToPending : ActionUpdates :=
  mkActionUpdates None None None None None None None None (Some pending) None.

(** [{ id: 'renamed' }] *)
Definition renamed : ActionUpdates :=
  mkActionUpdates (Some "renamed") None None None None None None None None None.

(** A second reading of the random generator that differs from the one of
    [sampleSource] only after the digits that [substr(2, 9)] keeps. *)
Definition sampleSourceTwin : IdSource :=
  mkIdSource 1700000000000 "0.4fzyo82mvzz".

Definition twoCalls : list EnqueueCall :=
  [mkEnqueueCall sampleSource 1700000000001 sampleNew;
   mkEnqueueCall sampleSourceTwin 1700000000001 sampleUpdateNew].

(** The initial store after one [addToOfflineQueue] whose two clock
    readings fall into the same millisecond. *)
Definition sameMsState : DataCacheState :=
  addToOfflineQueue sampleSource 1700000000000 sampleNew initialState.

(** The initial store after the two calls of [twoCalls]. *)
Definition twinState : DataCacheState := enqueueAll twoCalls initialState.

(** ** Partial sync *)

Module SyncService.

(** [interface SyncResult] of the stability report (section 1.2). *)
Record SyncResult : Type := mkSyncResult {
  resource : string;
  success : bool;
  itemCount : option Z;
  errorMessage : option string;
  timestamp : Z
}.

(** What the remote answered for one resource type. *)
Inductive FetchOutcome : Type :=
  | Fetched (data : list Json)
  | FetchFailed (error : string).

(** One resource type of a cycle, with the answer of its fetch and the
    clock reading taken for its result. *)
Record ResourceFetch : Type := mkResourceFetch {
  fetch_resource : Resource;
  fetch_outcome : FetchOutcome;
  fetch_time : Z
}.

(** Modelled from the spec: the per-resource step of the sync engine
    (syncService.ts is not among the sources).  "fetch remote, on success
    replace that resource type's slice of Cache State and record a success
    SyncResult; on failure, leave that resource type's cached data
    untouched, record a failure SyncResult with the error".  The slice is
    replaced through the store's own setter. *)
Definition syncResource (f : ResourceFetch) (s : DataCacheState)
  : DataCacheState * SyncResult :=
  match fetch_outcome f with
  | Fetched data =>
      (setCached (fetch_resource f) data s,
       {| resource := resourceName (fetch_resource f);
          success := true;
          itemCount := Some (Z.of_nat (length data));
          errorMessage := None;
          timestamp := fetch_time f |})
  | FetchFailed error =>
      (s,
       {| resource := resourceName (fetch_resource f);
          success := false;
          itemCount := None;
          errorMessage := Some error;
          timestamp := fetch_time f |})
  end.

(** Modelled from the spec: one sync cycle (syncService.ts is not among
    the sources): "for each configured resource type independently ...
    and continue to the next resource type".  The cycle returns the cache
    it leaves and one SyncResult per resource type, in cycle order. *)
Fixpoint syncResources (fs : list ResourceFetch) (s : DataCacheState)
  : DataCacheState * list SyncResult :=
  match fs with
  | [] => (s, [])
  | f :: rest =>
      let '(s1, r) := syncResource f s in
      let '(s2, rs) := syncResources rest s1 in
      (s2, r :: rs)
  end.

End SyncService.

(** ** Snapshots *)

Module Snapshots.

(** The [data] member of [interface DataSnapshot] (stability report,
    section 1.1): every member is optional. *)
Record SnapshotData : Type := mkSnapshotData {
  products : option (list Json);
  categories : option (list Json);
  orders : option (list Json);
  carBrands : option (list Json);
  carModels : option (list Json);
  productBrands : option (list Json)
}.

(** [interface DataSnapshot] *)
Record DataSnapshot : Type := mkDataSnapshot {
  id : string;
  timestamp : Z;
  description : string;
  data : SnapshotData
}.

(** "Only keeps the 5 most recent snapshots" *)
Definition maxSnapshots : nat := 5.

(** One call of [createSnapshot]: its two arguments, the id and clock
    reading it gives the snapshot, and the cache it copies from. *)
Record SnapshotCall : Type := mkSnapshotCall {
  snap_id : string;
  snap_now : Z;
  snap_description : string;
  snap_included : list Resource;
  snap_cache : DataCacheState
}.

Definition copyIfIncluded (included : list Resource) (r : Resource)
  (s : DataCacheState) : option (list Json) :=
  if decide (r ∈ included) then Some (cached r s) else None.

(** Modelled from the spec: the checkpoint that [createSnapshot] builds
    (the v3.0 store is not among the sources): "deep-copies the named
    resource sets from Cache State into a new immutable DataSnapshot". *)
Definition takeSnapshot (c : SnapshotCall) : DataSnapshot :=
  {| id := snap_id c;
     timestamp := snap_now c;
     description := snap_description c;
     data :=
       {| products := copyIfIncluded (snap_included c) Products (snap_cache c);
          categories := copyIfIncluded (snap_included c) Categories (snap_cache c);
          orders := copyIfIncluded (snap_included c) Orders (snap_cache c);
          carBrands := copyIfIncluded (snap_included c) CarBrands (snap_cache c);
          carModels := copyIfIncluded (snap_included c) CarModels (snap_cache c);
          productBrands :=
            copyIfIncluded (snap_included c) ProductBrands (snap_cache c) |} |}.

(** Modelled from the spec: [createSnapshot] on the snapshot history
    (the v3.0 store is not among the sources): "prepends to history,
    evicts oldest beyond capacity 5".  The history is most recent first. *)
Definition createSnapshot (c : SnapshotCall) (history : list DataSnapshot)
  : list DataSnapshot :=
  take maxSnapshots (takeSnapshot c :: history).

(** A sequence of [createSnapshot] calls, the head of the list first. *)
Definition createSnapshots (calls : list SnapshotCall)
  (history : list DataSnapshot) : list DataSnapshot :=
  foldl (λ h c, createSnapshot c h) history calls.

End Snapshots.

(** ** Conflict tracking *)

Module Conflicts.

(** [interface ResourceVersion] of the stability report (section 1.3). *)
Record ResourceVersion : Type := mkResourceVersion {
  resourceId : string;
  resourceType : string;
  localVersion : Z;
  serverVersion : option Z;
  lastModified : Z;
  hasConflict : bool
}.

(** The store together with the version ledger.  An entry "ties a
    resource id + resource type" to its versions, so the ledger is keyed
    by the pair (resource id, resource type). *)
Record Tracker : Type := mkTracker {
  store : DataCacheState;
  versions : gmap (string * string) ResourceVersion
}.

Definition emptyTracker : Tracker :=
  {| store := initialState; versions := ∅ |}.

Definition bumpLocal (now : Z) (v : ResourceVersion) : ResourceVersion :=
  {| resourceId := resourceId v; resourceType := resourceType v;
     localVersion := localVersion v + 1;
     serverVersion := serverVersion v;
     lastModified := now;
     hasConflict := hasConflict v |}.

Definition withConflict (flag : bool) (v : ResourceVersion) : ResourceVersion :=
  {| resourceId := resourceId v; resourceType := resourceType v;
     localVersion := localVersion v;
     serverVersion := serverVersion v;
     lastModified := lastModified v;
     hasConflict := flag |}.

Definition withServerVersion (sv : Z) (v : ResourceVersion) : ResourceVersion :=
  {| resourceId := resourceId v; resourceType := resourceType v;
     localVersion := localVersion v;
     serverVersion := Some sv;
     lastModified := lastModified v;
     hasConflict := false |}.

(** Modelled from the spec: [recordLocalEdit] (the v3.0 store is not
    among the sources): "increments local version for that resource;
    creates the ResourceVersion if absent".  A created entry counts its
    first edit, knows no server version and carries no conflict; the time
    of the edit is when the local version was established. *)
Definition recordLocalEdit (now : Z) (rid rtype : string)
  (vs : gmap (string * string) ResourceVersion)
  : gmap (string * string) ResourceVersion :=
  match vs !! (rid, rtype) with
  | Some v => <[(rid, rtype) := bumpLocal now v]> vs
  | None =>
      <[(rid, rtype) :=
          {| resourceId := rid; resourceType := rtype;
             localVersion := 1; serverVersion := None;
             lastModified := now; hasConflict := false |}]> vs
  end.

(** Modelled from the spec: [observeServerVersion] (the report's
    [checkConflict]; the v3.0 store is not among the sources): "if a
    ResourceVersion exists with a pending local edit whose local version
    was established before this server version was last known, and the two
    diverge, set conflict=true; otherwise update serverVersion and clear
    conflict".  Whether a local edit of the resource is still pending is
    not a member of the entry: the caller, who drains the queue, knows it
    and passes it ([editPending]).  [now] is when this server version becomes
    known; the local version was established at [lastModified];
    divergence is inequality of the two version numbers. *)
Definition observeServerVersion (editPending : bool) (now : Z) (rid rtype : string)
  (sv : Z) (vs : gmap (string * string) ResourceVersion)
  : gmap (string * string) ResourceVersion :=
  match vs !! (rid, rtype) with
  | Some v =>
      if editPending && bool_decide (lastModified v < now)
         && bool_decide (localVersion v ≠ sv)
      then <[(rid, rtype) := withConflict true v]> vs
      else <[(rid, rtype) := withServerVersion sv v]> vs
  | None => vs
  end.

(** Modelled from the spec: [resolve] (the v3.0 store is not among the
    sources): "if keepLocal, re-queue an OfflineAction re-asserting the
    local state and clear the conflict flag; else, discard local version
    tracking for that resource".  [resolve] names the resource by its id
    alone, so it reaches the entries of that id.  The action that
    re-asserts the local state is the caller's ([reassert]); it is queued
    with the store's [addToOfflineQueue]. *)
Definition resolve (src : IdSource) (now : Z) (reassert : NewAction)
  (rid : string) (keepLocal : bool) (t : Tracker) : Tracker :=
  if keepLocal
  then {| store := addToOfflineQueue src now reassert (store t);
          versions :=
            map_imap (λ k v, Some (if decide (k.1 = rid)
                                   then withConflict false v else v))
                     (versions t) |}
  else {| store := store t;
          versions := filter (λ kv, kv.1.1 ≠ rid) (versions t) |}.




(** The calls of the tracker that a resource's history is made of. *)
Inductive Event : Type :=
  | LocalEdit (now : Z) (rid rtype : string)
  | ServerVersion (editPending : bool) (now : Z) (rid rtype : string) (sv : Z)
  | Resolve (src : IdSource) (now : Z) (reassert : NewAction)
            (rid : string) (keepLocal : bool).

Definition step (e : Event) (t : Tracker) : Tracker :=
  match e with
  | LocalEdit now rid rtype =>
      {| store := store t;
         versions := recordLocalEdit now rid rtype (versions t) |}
  | ServerVersion editPending now rid rtype sv =>
      {| store := store t;
         versions :=
           observeServerVersion editPending now rid rtype sv (versions t) |}
  | Resolve src now reassert rid keepLocal =>
      resolve src now reassert rid keepLocal t
  end.

Definition run (history : list Event) (t : Tracker) : Tracker :=
  foldl (λ st e, step e st) t history.







End Conflicts.

(** ** Sample values for the engine models *)

(** The scenario of a cycle over products and orders in which the
    products fetch is rejected by the server and the orders fetch
    succeeds. *)
Definition sampleCycle : list SyncService.ResourceFetch :=
  [SyncService.mkResourceFetch Products
     (SyncService.FetchFailed "HTTP 500") 1700000000100;
   SyncService.mkResourceFetch Orders
     (SyncService.Fetched [JObj [("id", JStr "o1")]]) 1700000000200].

Definition sampleSnapshotCall (n : Z) : Snapshots.SnapshotCall :=
  Snapshots.mkSnapshotCall ("snapshot_" +:+ pretty n) (1700000000000 + n)
    "before sync" [Products; Orders] (setProducts [JNum n] initialState).

(** A history that holds five snapshots. *)
Definition fiveSnapshots : list Snapshots.DataSnapshot :=
  Snapshots.createSnapshots
    [sampleSnapshotCall 1; sampleSnapshotCall 2; sampleSnapshotCall 3;
     sampleSnapshotCall 4; sampleSnapshotCall 5] [].


(** A local edit of product [p1], its confirmation by the server with the
    same version, and the next version of the server, no edit pending. *)
Definition confirmedHistory : list Conflicts.Event :=
  [Conflicts.LocalEdit 1700000000000 "p1" "products";
   Conflicts.ServerVersion true 1700000000500 "p1" "products" 1;
   Conflicts.ServerVersion false 1700000000900 "p1" "products" 2].

(** ** Every action of the data cache store *)

(** The empty object literal [{}] as a [Partial<OfflineAction>]. *)
Definition noUpdates : ActionUpdates :=
  mkActionUpdates None None None None None None None None None None.

(** One member of [{ ...u1, ...u2 }]: the later object wins where it
    carries the member. *)
Definition laterWins {A : Type} (m1 m2 : option A) : option A :=
  match m2 with
  | Some v => Some v
  | None => m1
  end.

(** [{ ...u1, ...u2 }] on two [Partial<OfflineAction>] objects. *)
Definition spreadUpdates (u1 u2 : ActionUpdates) : ActionUpdates :=
  {| upd_id := laterWins (upd_id u1) (upd_id u2);
     upd_type := laterWins (upd_type u1) (upd_type u2);
     upd_endpoint := laterWins (upd_endpoint u1) (upd_endpoint u2);
     upd_method := laterWins (upd_method u1) (upd_method u2);
     upd_payload := laterWins (upd_payload u1) (upd_payload u2);
     upd_timestamp := laterWins (upd_timestamp u1) (upd_timestamp u2);
     upd_retryCount := laterWins (upd_retryCount u1) (upd_retryCount u2);
     upd_maxRetries := laterWins (upd_maxRetries u1) (upd_maxRetries u2);
     upd_status := laterWins (upd_status u1) (upd_status u2);
     upd_errorMessage := laterWins (upd_errorMessage u1) (upd_errorMessage u2) |}.

(** The function members of [DataCacheState] that write the state. *)
Inductive StoreAction : Type :=
  | SetOnline (online : bool)
  | SetSyncStatus (status : SyncStatus)
  | SetSyncError (error : option string)
  | SetLastSyncTime (time : Z)
  | QueueAction (op : QueueOp)
  | SetProcessingQueue (isProcessing : bool)
  | SetCache (r : Resource) (data : list Json).

Definition dispatch (act : StoreAction) : DataCacheState → DataCacheState :=
  match act with
  | SetOnline online => setOnline online
  | SetSyncStatus st => setSyncStatus st
  | SetSyncError error => setSyncError error
  | SetLastSyncTime time => setLastSyncTime time
  | QueueAction op => applyOp op
  | SetProcessingQueue isProcessing => setProcessingQueue isProcessing
  | SetCache r data => setCached r data
  end.

(** Actions are dispatched from the head of the list on. *)
Definition dispatchAll (acts : list StoreAction) (s : DataCacheState)
  : DataCacheState :=
  foldl (λ st act, dispatch act st) s acts.

(** The actions that write only members that [partialize] leaves out. *)
Definition writesTransientOnly (act : StoreAction) : bool :=
  match act with
  | SetOnline _ | SetSyncStatus _ | SetSyncError _ | SetProcessingQueue _ => true
  | SetCache r _ => negb (isPersisted r)
  | SetLastSyncTime _ | QueueAction _ => false
  end.

(** An action as [addToOfflineQueue] leaves it: pending, not retried. *)
Definition untried (a : OfflineAction) : Prop :=
  status a = pending ∧ retryCount a = 0.

Definition isUpdate (op : QueueOp) : bool :=
  match op with
  | Update _ _ => true
  | Enqueue _ _ _ | Remove _ | Clear => false
  end.

(** ** The auth store (frontend/src/store/useAuthStore.ts) *)

Module AuthStore.

(** [type UserRole] *)
Inductive UserRole : Type :=
  | guest | user | subscriber | admin | partner | owner.

Global Instance UserRole_eq_dec : EqDecision UserRole.
Proof. solve_decision. Defined.

(** [interface User] *)
Record User : Type := mkUser {
  id : string;
  email : string;
  name : string;
  picture : option string;
  is_admin : option bool;
  role : option UserRole
}.

(** [interface AuthState], data members.  The member [user] is written
    [currentUser] here, [user] being a role. *)
Record AuthState : Type := mkAuthState {
  currentUser : option User;
  sessionToken : option string;
  isAuthenticated : bool;
  userRole : UserRole;
  _hasHydrated : bool
}.

Definition initialAuth : AuthState :=
  {| currentUser := None; sessionToken := None; isAuthenticated := false;
     userRole := guest; _hasHydrated := false |}.

(** Truthiness of a [string | null]: [null] and the empty string are
    falsy. *)
Definition truthy (t : option string) : bool :=
  match t with
  | Some EmptyString | None => false
  | Some (String _ _) => true
  end.

(** [setUser: (user, token = null) => set({ user, sessionToken: token ||
    get().sessionToken, isAuthenticated: !!user, userRole: user?.role ||
    'user' })].  Every role is a non-empty string, so [user?.role ||
    'user'] falls back only when the role is missing. *)
Definition setUser (u : option User) (token : option string) (s : AuthState)
  : AuthState :=
  {| currentUser := u;
     sessionToken := if truthy token then token else sessionToken s;
     isAuthenticated := match u with Some _ => true | None => false end;
     userRole := match u with
                 | Some x => default user (role x)
                 | None => user
                 end;
     _hasHydrated := _hasHydrated s |}.

Definition setSessionToken (token : option string) (s : AuthState) : AuthState :=
  {| currentUser := currentUser s; sessionToken := token;
     isAuthenticated := isAuthenticated s; userRole := userRole s;
     _hasHydrated := _hasHydrated s |}.

Definition setUserRole (r : UserRole) (s : AuthState) : AuthState :=
  {| currentUser := currentUser s; sessionToken := sessionToken s;
     isAuthenticated := isAuthenticated s; userRole := r;
     _hasHydrated := _hasHydrated s |}.

Definition setHasHydrated (hydrated : bool) (s : AuthState) : AuthState :=
  {| currentUser := currentUser s; sessionToken := sessionToken s;
     isAuthenticated := isAuthenticated s; userRole := userRole s;
     _hasHydrated := hydrated |}.

Definition logout (s : AuthState) : AuthState :=
  {| currentUser := None; sessionToken := None; isAuthenticated := false;
     userRole := guest; _hasHydrated := _hasHydrated s |}.

(** The object that the auth store's [partialize] returns. *)
Record PersistedAuth : Type := mkPersistedAuth {
  p_user : option User;
  p_sessionToken : option string;
  p_isAuthenticated : bool;
  p_userRole : UserRole
}.

Definition partialize (state : AuthState) : PersistedAuth :=
  {| p_user := currentUser state;
     p_sessionToken := sessionToken state;
     p_isAuthenticated := isAuthenticated state;
     p_userRole := userRole state |}.

(** [onRehydrateStorage: () => (state) => { if (state) {
    state.setHasHydrated(true) } }]: [rehydrated] tells whether the
    callback was given a state. *)
Definition onRehydrateStorage (rehydrated : bool) (s : AuthState) : AuthState :=
  if rehydrated then setHasHydrated true s else s.

(** [useCanAccessOwnerInterface], on the role it reads. *)
Definition canAccessOwnerInterface (r : UserRole) : bool :=
  bool_decide (r = owner) || bool_decide (r = partner).

(** [useCanAccessAdminPanel], on the role it reads:
    [['owner', 'partner', 'admin'].includes(userRole)]. *)
Definition canAccessAdminPanel (r : UserRole) : bool :=
  bool_decide (r ∈ [owner; partner; admin]).

(** The writing actions of the auth store. *)
Inductive AuthAction : Type :=
  | SetUser (u : option User) (token : option string)
  | SetSessionToken (token : option string)
  | SetUserRole (r : UserRole)
  | SetHasHydrated (hydrated : bool)
  | Logout.

Definition act (a : AuthAction) : AuthState → AuthState :=
  match a with
  | SetUser u token => setUser u token
  | SetSessionToken token => setSessionToken token
  | SetUserRole r => setUserRole r
  | SetHasHydrated hydrated => setHasHydrated hydrated
  | Logout => logout
  end.

Definition actAll (acts : list AuthAction) (s : AuthState) : AuthState :=
  foldl (λ st a, act a st) s acts.

Definition isSetUser (a : AuthAction) : bool :=
  match a with
  | SetUser _ _ => true
  | _ => false
  end.

Definition isSetHasHydrated (a : AuthAction) : bool :=
  match a with
  | SetHasHydrated _ => true
  | _ => false
  end.

End AuthStore.

(** ** The image uploader (frontend/src/components/ui/ImageUploader.tsx) *)

Module ImageUploader.

(** [mode: 'single' | 'multiple'] *)
Inductive Mode : Type := single | multiple.

(** [value: string | string[]] *)
Inductive Value : Type :=
  | Url (url : string)
  | Urls (urls : list string).

(** [Array.isArray(value) ? value : []] *)
Definition currentUrls (value : Value) : list string :=
  match value with
  | Urls urls => urls
  | Url _ => []
  end.

(** [l.slice(0, end)] for an integer [end]: a negative [end] counts from
    the end of the array. *)
Definition slice0 {A : Type} (end_ : Z) (l : list A) : list A :=
  if end_ <? 0
  then take (Z.to_nat (Z.of_nat (length l) + end_)) l
  else take (Z.to_nat end_) l.

(** The argument that the [onSuccess] callback of the upload hook gives
    to [onChange]; [None] is [undefined] ([urls[0]] of an empty array). *)
Definition onSuccess (mode : Mode) (value : Value) (maxImages : Z)
  (urls : list string) : option Value :=
  match mode with
  | single => Url <$> head urls
  | multiple => Some (Urls (slice0 maxImages (currentUrls value ++ urls)))
  end.

(** What [handlePickFromGallery] does. *)
Inductive GalleryStep : Type :=
  | MaxReached
  | PickMultiple (remaining : Z)
  | PickOne.

Definition handlePickFromGallery (mode : Mode) (value : Value) (maxImages : Z)
  : GalleryStep :=
  match mode with
  | multiple =>
      let currentCount := Z.of_nat (length (currentUrls value)) in
      let remaining := maxImages - currentCount in
      if remaining <=? 0 then MaxReached else PickMultiple remaining
  | single => PickOne
  end.

(** [handleTakePhoto]: [None] when the limit alert is shown instead of the
    camera; otherwise, for the [url] the camera returns ([null] when the
    user cancels), the call of [onChange], if any. *)
Definition handleTakePhoto (mode : Mode) (value : Value) (maxImages : Z)
  (url : option string) : option (option Value) :=
  let blocked :=
    match mode with
    | multiple => maxImages <=? Z.of_nat (length (currentUrls value))
    | single => false
    end in
  if blocked then None
  else Some (match url with
             | Some (String c rest) =>
                 Some (match mode with
                       | single => Url (String c rest)
                       | multiple =>
                           Urls (slice0 maxImages
                                   (currentUrls value ++ [String c rest]))
                       end)
             | Some EmptyString | None => None
             end).

(** [handleRemoveImage(index)], with the index of a rendered image:
    [urls.splice(index, 1)] takes out the element at [index], if any. *)
Definition handleRemoveImage (mode : Mode) (value : Value) (index : nat) : Value :=
  match mode with
  | single => Url ""
  | multiple => Urls (delete index (currentUrls value))
  end.

(** [hasImages] *)
Definition hasImages (mode : Mode) (value : Value) : bool :=
  match mode with
  | single =>
      match value with
      | Url EmptyString => false
      | Url (String _ _) => true
      | Urls _ => true
      end
  | multiple =>
      match value with
      | Urls (_ :: _) => true
      | _ => false
      end
  end.

(** [canAddMore = images.length < maxImages] *)
Definition canAddMore (value : Value) (maxImages : Z) : bool :=
  Z.of_nat (length (currentUrls value)) <? maxImages.

End ImageUploader.

(** ** Optimistic delete of the distributors screen *)

Module DistributorsScreen.
Section OptimisticDelete.

(** The screen reads only the [id] of an [interface Distributor]. *)
Context {Distributor : Type} (id : Distributor → string).

(** [onMutate]: what it stores under the distributors query key and the
    context [{ previousDistributors }] it returns; [None] is a query
    without data ([undefined]). *)
Definition onMutate (deletedId : string) (cache : option (list Distributor))
  : option (list Distributor) * option (list Distributor) :=
  (Some (match cache with
         | Some old => filter (λ d, id d ≠ deletedId) old
         | None => []
         end),
   cache).

(** [onError]: [if (context?.previousDistributors) setQueryData(key,
    context.previousDistributors)]; an array is truthy also when empty. *)
Definition onError (previousDistributors : option (list Distributor))
  (cache : option (list Distributor)) : option (list Distributor) :=
  match previousDistributors with
  | Some previous => Some previous
  | None => cache
  end.

End OptimisticDelete.
End DistributorsScreen.

(** ** The DocumentDB configuration, as functions of its variables *)

Module Terraform.

(** [var.environment == "production"] *)
Definition isProduction (environment : string) : bool :=
  bool_decide (environment = "production").

(** [local.cluster_name = "alghazaly-${var.environment}"] *)
Definition cluster_name (environment : string) : string :=
  "alghazaly-" +:+ environment.

(** Arguments of [resource "aws_docdb_cluster" "main"]. *)
Definition backup_retention_period (environment : string) : Z :=
  if isProduction environment then 7 else 1.

Definition deletion_protection (environment : string) : bool :=
  isProduction environment.

Definition skip_final_snapshot (environment : string) : bool :=
  negb (isProduction environment).

(** [None] is [null]. *)
Definition final_snapshot_identifier (environment : string) : option string :=
  if isProduction environment
  then Some (cluster_name environment +:+ "-docdb-final")
  else None.

(** [resource "aws_docdb_cluster_instance" "main"]: its [count] and the
    [identifier] of the instance with a given [count.index]. *)
Definition instance_count (environment : string) : nat :=
  if isProduction environment then 2 else 1.

Definition instance_identifier (environment : string) (index : nat) : string :=
  cluster_name environment +:+ "-docdb-" +:+ pretty (Z.of_nat index + 1).

Definition instance_identifiers (environment : string) : list string :=
  instance_identifier environment <$> seq 0 (instance_count environment).

End Terraform.

(** ** Sample values for the auth store and the screens *)

(** A user whose record carries the admin flag but no role. *)
Definition flaggedUser : AuthStore.User :=
  AuthStore.mkUser "u1" "admin@example.com" "Admin" None (Some true) None.

Definition ownerUser : AuthStore.User :=
  AuthStore.mkUser "u2" "owner@example.com" "Owner" None None
    (Some AuthStore.owner).

(** The auth store after a sign-in with a session token. *)
Definition signedIn : AuthStore.AuthState :=
  AuthStore.setUser (Some ownerUser) (Some "token-1") AuthStore.initialAuth.

Definition threeImages : ImageUploader.Value :=
  ImageUploader.Urls ["a.jpg"; "b.jpg"; "c.jpg"].

(** * Properties *)

(** ** The operations on sample values *)

Example generateActionId_sample :
  generateActionId sampleSource = "action_1700000000000_4fzyo82mv".
Proof. reflexivity. Qed.

(** [Math.random()] returning 0 prints as ["0"], of which [substr(2, 9)]
    is empty. *)
Example generateActionId_zero :
  generateActionId (mkIdSource 0 "0") = "action_0_".
Proof. reflexivity. Qed.

Example add_then_update_queued_in_order :
  type <$> offlineActionsQueue twinState = [cart_add; cart_update].
Proof. reflexivity. Qed.

Example remove_by_id_sample :
  offlineActionsQueue
    (removeFromOfflineQueue "action_1700000000000_4fzyo82mv" sampleState)
  = [].
Proof. by vm_compute. Qed.

Example sampleCycle_results :
  SyncService.success <$> (SyncService.syncResources sampleCycle initialState).2
  = [false; true].
Proof. reflexivity. Qed.

Example fiveSnapshots_ids :
  Snapshots.id <$> fiveSnapshots
  = ["snapshot_5"; "snapshot_4"; "snapshot_3"; "snapshot_2"; "snapshot_1"].
Proof. reflexivity. Qed.

Example sixth_snapshot_ids :
  Snapshots.id <$> Snapshots.createSnapshot (sampleSnapshotCall 6) fiveSnapshots
  = ["snapshot_6"; "snapshot_5"; "snapshot_4"; "snapshot_3"; "snapshot_2"].
Proof. reflexivity. Qed.

(** ** The queue member under the store's operations *)

Lemma set_queue_same s : set_offlineActionsQueue (offlineActionsQueue s) s = s.
Proof. by destruct s. Qed.

Lemma queue_add src now action s :
  offlineActionsQueue (addToOfflineQueue src now action s)
  = offlineActionsQueue s ++ [newOfflineAction src now action].
Proof. reflexivity. Qed.

Lemma queue_remove actionId s :
  offlineActionsQueue (removeFromOfflineQueue actionId s)
  = filter (λ a, id a ≠ actionId) (offlineActionsQueue s).
Proof. reflexivity. Qed.

Lemma queue_update actionId updates s :
  offlineActionsQueue (updateQueueAction actionId updates s)
  = (λ a, if decide (id a = actionId) then mergeUpdates a updates else a)
      <$> offlineActionsQueue s.
Proof. reflexivity. Qed.

Lemma queue_clear s : offlineActionsQueue (clearOfflineQueue s) = [].
Proof. reflexivity. Qed.

Lemma applyOps_cons op ops s :
  applyOps (op :: ops) s = applyOps ops (applyOp op s).
Proof. reflexivity. Qed.

Lemma queue_enqueueAll calls s :
  offlineActionsQueue (enqueueAll calls s)
  = offlineActionsQueue s ++ (created <$> calls).
Proof.
  revert s. induction calls as [|c calls IH]; intros s; simpl.
  - by rewrite app_nil_r.
  - unfold enqueueAll in *. simpl. rewrite IH, queue_add.
    by rewrite <- app_assoc.
Qed.

(** C1.  After any sequence of [addToOfflineQueue] calls the queue is the
    old queue followed by the created actions in the order of their
    creation, so that reading it from the head meets them in creation
    order: the action of the [i]-th call sits [i] places after the old
    tail. *)
Theorem enqueue_keeps_creation_order (calls : list EnqueueCall)
  (s : DataCacheState) :
  offlineActionsQueue (enqueueAll calls s)
  = offlineActionsQueue s ++ (created <$> calls)
  ∧ ∀ i : nat,
      offlineActionsQueue (enqueueAll calls s)
        !! (length (offlineActionsQueue s) + i)%nat
      = created <$> (calls !! i).
Proof.
  split; [apply queue_enqueueAll|].
  intros i. rewrite queue_enqueueAll.
  rewrite lookup_app_r by lia.
  replace (length (offlineActionsQueue s) + i - length (offlineActionsQueue s))%nat
    with i by lia.
  apply list_lookup_fmap.
Qed.

(** C4.  [addToOfflineQueue] leaves the old queue in place and appends
    exactly one action: pending, with retry count 0, the clock reading of
    the call as timestamp, the caller's members otherwise, and as id the
    text [action_<clock>_<digits>] made of the clock value and the nine
    random digits that [generateActionId] read for this call; no other
    member of the state changes.  That id is generated, not fresh: on a
    queue that holds an action generated from the same clock value and
    digits, here a second call within the millisecond of the first, with
    the random text of [sampleSourceTwin], the appended action carries the
    id of the queued one, and the queue ends with one id twice. *)
Theorem addToOfflineQueue_appends_pending_action :
  (∀ (src : IdSource) (now : Z) (action : NewAction) (s : DataCacheState),
     ∃ a : OfflineAction,
       offlineActionsQueue (addToOfflineQueue src now action s)
       = offlineActionsQueue s ++ [a]
       ∧ status a = pending
       ∧ retryCount a = 0
       ∧ id a = "action_" +:+ pretty (id_now src) +:+ "_"
                +:+ substring 2 9 (id_random36 src)
       ∧ timestamp a = now
       ∧ type a = new_type action
       ∧ endpoint a = new_endpoint action
       ∧ method a = new_method action
       ∧ payload a = new_payload action
       ∧ maxRetries a = new_maxRetries action
       ∧ errorMessage a = new_errorMessage action
       ∧ getQueueLength (addToOfflineQueue src now action s)
         = S (getQueueLength s)
       ∧ sameOutsideQueue s (addToOfflineQueue src now action s))
  ∧ sampleSourceTwin ≠ sampleSource
  ∧ queueIds sameMsState = ["action_1700000000000_4fzyo82mv"]
  ∧ ∃ a : OfflineAction,
      offlineActionsQueue
        (addToOfflineQueue sampleSourceTwin 1700000000000 sampleUpdateNew
           sameMsState)
      = offlineActionsQueue sameMsState ++ [a]
      ∧ status a = pending
      ∧ retryCount a = 0
      ∧ timestamp a = 1700000000000
      ∧ id a = "action_1700000000000_4fzyo82mv"
      ∧ id a ∈ queueIds sameMsState
      ∧ ¬ NoDup (queueIds
                   (addToOfflineQueue sampleSourceTwin 1700000000000
                      sampleUpdateNew sameMsState)).
Proof.
  split; [|split; [discriminate|split; [reflexivity|]]].
  - intros src now action s.
    exists (newOfflineAction src now action).
    repeat split.
    unfold getQueueLength. rewrite queue_add, length_app. simpl. lia.
  - exists (newOfflineAction sampleSourceTwin 1700000000000 sampleUpdateNew).
    split; [reflexivity|]. split; [reflexivity|]. split; [reflexivity|].
    split; [reflexivity|]. split; [reflexivity|]. split; [left|].
    intros Hnd. apply NoDup_cons in Hnd as [Hnot _].
    apply Hnot. left.
Qed.

(** ** Frame of update and remove *)

Lemma update_lookup actionId updates s (i : nat) :
  offlineActionsQueue (updateQueueAction actionId updates s) !! i
  = (λ a, if decide (id a = actionId) then mergeUpdates a updates else a)
      <$> (offlineActionsQueue s !! i).
Proof. rewrite queue_update. apply list_lookup_fmap. Qed.

Lemma update_no_match actionId updates s :
  (∀ a, a ∈ offlineActionsQueue s → id a ≠ actionId) →
  updateQueueAction actionId updates s = s.
Proof.
  intros Hno. unfold updateQueueAction.
  replace ((λ a, if decide (id a = actionId) then mergeUpdates a updates else a)
             <$> offlineActionsQueue s)
    with (offlineActionsQueue s); [apply set_queue_same|].
  induction (offlineActionsQueue s) as [|a q IH]; [done|].
  rewrite fmap_cons. f_equal.
  - destruct (decide (id a = actionId)) as [E|]; [|done].
    exfalso. by apply (Hno a); [left|].
  - apply IH. intros b Hb. apply Hno. by right.
Qed.

Lemma remove_no_match actionId s :
  (∀ a, a ∈ offlineActionsQueue s → id a ≠ actionId) →
  removeFromOfflineQueue actionId s = s.
Proof.
  intros Hno. unfold removeFromOfflineQueue.
  replace (filter (λ a, id a ≠ actionId) (offlineActionsQueue s))
    with (offlineActionsQueue s); [apply set_queue_same|].
  induction (offlineActionsQueue s) as [|a q IH]; [done|].
  rewrite filter_cons_True by (apply Hno; left).
  f_equal. apply IH. intros b Hb. apply Hno. by right.
Qed.

(** With pairwise distinct ids at most one place of the queue holds a
    given id. *)
Lemma id_place_unique (q : list OfflineAction) (i j : nat) a b :
  NoDup (id <$> q) → q !! i = Some a → q !! j = Some b → id a = id b → i = j.
Proof.
  intros Hnd Hi Hj Hab.
  eapply NoDup_lookup; [exact Hnd| |].
  - rewrite list_lookup_fmap, Hi. reflexivity.
  - rewrite list_lookup_fmap, Hj. simpl. by rewrite Hab.
Qed.

(** C10, as the store has it.  [updateQueueAction] keeps the length of
    the queue and every place of it: an action with another id stays as it
    is where it is, and every action with the id is merged with the
    updates, so that with pairwise distinct ids at most one place changes;
    no other member of the state changes.  When no queued action has the
    id, [updateQueueAction] and [removeFromOfflineQueue] both return the
    state they were given. *)
Theorem update_and_remove_frame (actionId : string) (updates : ActionUpdates)
  (s : DataCacheState) :
  length (offlineActionsQueue (updateQueueAction actionId updates s))
  = length (offlineActionsQueue s)
  ∧ (∀ (i : nat) a, offlineActionsQueue s !! i = Some a → id a ≠ actionId →
       offlineActionsQueue (updateQueueAction actionId updates s) !! i = Some a)
  ∧ (∀ (i : nat) a, offlineActionsQueue s !! i = Some a → id a = actionId →
       offlineActionsQueue (updateQueueAction actionId updates s) !! i
       = Some (mergeUpdates a updates))
  ∧ (NoDup (queueIds s) →
     ∀ i j : nat,
       offlineActionsQueue (updateQueueAction actionId updates s) !! i
         ≠ offlineActionsQueue s !! i →
       offlineActionsQueue (updateQueueAction actionId updates s) !! j
         ≠ offlineActionsQueue s !! j →
       i = j)
  ∧ sameOutsideQueue s (updateQueueAction actionId updates s)
  ∧ ((∀ a, a ∈ offlineActionsQueue s → id a ≠ actionId) →
     updateQueueAction actionId updates s = s
     ∧ removeFromOfflineQueue actionId s = s).
Proof.
  split; [by rewrite queue_update, length_fmap|].
  split.
  { intros i a Hi Hne. rewrite update_lookup, Hi. simpl.
    by destruct (decide (id a = actionId)). }
  split.
  { intros i a Hi He. rewrite update_lookup, Hi. simpl.
    by destruct (decide (id a = actionId)). }
  split.
  { intros Hnd i j Hi Hj.
    rewrite update_lookup in Hi, Hj.
    destruct (offlineActionsQueue s !! i) as [a|] eqn:Ea; [|done].
    destruct (offlineActionsQueue s !! j) as [b|] eqn:Eb; [|done].
    simpl in Hi, Hj.
    destruct (decide (id a = actionId)) as [Ha|]; [|done].
    destruct (decide (id b = actionId)) as [Hb|]; [|done].
    eapply id_place_unique; eauto. congruence. }
  split; [reflexivity|].
  intros Hno. split; [by apply update_no_match | by apply remove_no_match].
Qed.

Lemma update_and_remove_frame_witness :
  (∀ a, a ∈ offlineActionsQueue sampleState → id a ≠ "missing")
  ∧ updateQueueAction "missing" fiveRetries sampleState = sampleState
  ∧ removeFromOfflineQueue "missing" sampleState = sampleState.
Proof.
  assert (∀ a, a ∈ offlineActionsQueue sampleState → id a ≠ "missing") as Hno.
  { intros a Ha. apply list_elem_of_singleton in Ha. subst a. discriminate. }
  split; [exact Hno|].
  exact (proj2 (proj2 (proj2 (proj2 (proj2
           (update_and_remove_frame "missing" fiveRetries sampleState)))))
           Hno).
Defined.

(** C10 as stated fails on the store where two queued actions share an
    id: the update reaches both places, not one. *)
Lemma update_reaches_every_match :
  queueIds twinState
  = ["action_1700000000000_4fzyo82mv"; "action_1700000000000_4fzyo82mv"]
  ∧ retryCount <$> offlineActionsQueue twinState = [0; 0]
  ∧ retryCount <$> offlineActionsQueue
        (updateQueueAction "action_1700000000000_4fzyo82mv" fiveRetries
           twinState)
    = [5; 5]
  ∧ offlineActionsQueue
      (updateQueueAction "action_1700000000000_4fzyo82mv" fiveRetries twinState)
      !! 0%nat
    ≠ offlineActionsQueue twinState !! 0%nat
  ∧ offlineActionsQueue
      (updateQueueAction "action_1700000000000_4fzyo82mv" fiveRetries twinState)
      !! 1%nat
    ≠ offlineActionsQueue twinState !! 1%nat.
Proof.
  split; [by vm_compute|]. split; [by vm_compute|]. split; [by vm_compute|].
  split; intros E; apply (f_equal (fmap retryCount)) in E;
    vm_compute in E; discriminate E.
Qed.

(** ** What an operation does to a queued action *)

Lemma stays_or_merged (op : QueueOp) (s : DataCacheState) (a : OfflineAction) :
  a ∈ offlineActionsQueue s → op ≠ Clear → op ≠ Remove (id a) →
  (a ∈ offlineActionsQueue (applyOp op s) ∧ ∀ u, op ≠ Update (id a) u)
  ∨ ∃ u, op = Update (id a) u
         ∧ mergeUpdates a u ∈ offlineActionsQueue (applyOp op s).
Proof.
  intros Ha Hclear Hremove.
  destruct op as [src now action|actionId|actionId updates|]; cbn [applyOp].
  - left. split; [|done]. rewrite queue_add, elem_of_app. by left.
  - left. split; [|done]. rewrite queue_remove, list_elem_of_filter.
    split; [|done]. intros E. apply Hremove. by rewrite E.
  - destruct (decide (id a = actionId)) as [E|N].
    + right. exists updates. split; [by rewrite E|].
      rewrite queue_update, list_elem_of_fmap. exists a.
      split; [|done]. by destruct (decide (id a = actionId)).
    + left. split; [|intros u [=]; by apply N].
      rewrite queue_update, list_elem_of_fmap. exists a.
      split; [|done]. by destruct (decide (id a = actionId)).
  - done.
Qed.

Lemma removed_is_gone (s : DataCacheState) (a : OfflineAction) :
  a ∉ offlineActionsQueue (removeFromOfflineQueue (id a) s).
Proof. rewrite queue_remove, list_elem_of_filter. by intros [? _]. Qed.

(** C5, as the store has it.  An action that is queued is still queued
    after every operation that is neither [clearOfflineQueue] nor
    [removeFromOfflineQueue] of its id: unchanged, or merged with the
    updates when the operation is [updateQueueAction] of its id.
    [removeFromOfflineQueue] of its id takes it out, and
    [clearOfflineQueue] takes every action out. *)
Theorem actions_leave_by_remove_or_clear (op : QueueOp) (s : DataCacheState)
  (a : OfflineAction) :
  a ∈ offlineActionsQueue s →
  (op ≠ Clear → op ≠ Remove (id a) →
   a ∈ offlineActionsQueue (applyOp op s)
   ∨ ∃ u, op = Update (id a) u
          ∧ mergeUpdates a u ∈ offlineActionsQueue (applyOp op s))
  ∧ (a ∉ offlineActionsQueue (applyOp (Remove (id a)) s))
  ∧ offlineActionsQueue (applyOp Clear s) = [].
Proof.
  intros Ha. split; [|split].
  - intros Hc Hr.
    destruct (stays_or_merged op s a Ha Hc Hr) as [[H _]|H]; [by left|by right].
  - apply removed_is_gone.
  - reflexivity.
Qed.

Lemma sampleAction_queued : sampleAction ∈ offlineActionsQueue sampleState.
Proof. left. Qed.

Lemma actions_leave_by_remove_or_clear_witness :
  sampleAction ∈ offlineActionsQueue sampleState
  ∧ (sampleAction
       ∈ offlineActionsQueue (applyOp (Update "other" fiveRetries) sampleState)
     ∨ (∃ u, Update "other" fiveRetries = Update (id sampleAction) u
             ∧ mergeUpdates sampleAction u
               ∈ offlineActionsQueue
                   (applyOp (Update "other" fiveRetries) sampleState))).
Proof.
  split; [exact sampleAction_queued|].
  apply (actions_leave_by_remove_or_clear
           (Update "other" fiveRetries) sampleState sampleAction
           sampleAction_queued); discriminate.
Defined.

(** C5 as stated fails: [clearOfflineQueue] is not a removal by id, and
    the queued action is gone after it. *)
Lemma clear_drops_queued_action :
  sampleAction ∈ offlineActionsQueue sampleState
  ∧ (∀ actionId, Clear ≠ Remove actionId)
  ∧ sampleAction ∉ offlineActionsQueue (applyOp Clear sampleState).
Proof.
  split; [exact sampleAction_queued|]. split; [done|].
  cbn [applyOp]. rewrite queue_clear. apply not_elem_of_nil.
Qed.

(** ** The retry bound *)

Lemma keepsRetryBound_step (op : QueueOp) (s : DataCacheState) :
  Forall withinRetryBound (offlineActionsQueue s) →
  keepsRetryBound op s →
  Forall withinRetryBound (offlineActionsQueue (applyOp op s)).
Proof.
  intros Hq Hop.
  destruct op as [src now action|actionId|actionId updates|]; cbn [applyOp].
  - rewrite queue_add. apply Forall_app. split; [done|].
    apply Forall_singleton. intros _. exact Hop.
  - rewrite queue_remove. apply Forall_forall. intros a Ha.
    apply list_elem_of_filter in Ha as [_ Ha].
    by eapply Forall_forall in Hq.
  - rewrite queue_update. apply Forall_forall. intros b Hb.
    apply list_elem_of_fmap in Hb as (a & -> & Ha).
    destruct (decide (id a = actionId)) as [E|_].
    + by apply Hop.
    + by eapply Forall_forall in Hq.
  - rewrite queue_clear. constructor.
Qed.

Lemma keepsRetryBound_steps (ops : list QueueOp) (s : DataCacheState) :
  Forall withinRetryBound (offlineActionsQueue s) →
  opsKeepRetryBound ops s →
  Forall withinRetryBound (offlineActionsQueue (applyOps ops s)).
Proof.
  revert s. induction ops as [|op ops IH]; intros s Hq Hops; [done|].
  destruct Hops as [Hop Hrest]. rewrite applyOps_cons.
  apply IH; [|done]. by apply keepsRetryBound_step.
Qed.

(** C3, as the store has it.  The store keeps no retry bound of its own:
    it creates an action with retry count 0 and status pending, and
    afterwards writes the retry count, the maximum and the status only
    through [updateQueueAction], with the caller's values.  So the bound
    (a pending action has used at most [maxRetries] retries) holds after a
    sequence of operations when it held before, every enqueued action has
    a [maxRetries] of at least 0 and every update leaves the actions it
    matches within the bound; and a failed action that stays in the queue
    is still failed after an operation, unless that operation is an update
    of its id that carries a status. *)
Theorem retry_bound_kept_by_disciplined_callers (ops : list QueueOp)
  (s : DataCacheState) :
  Forall withinRetryBound (offlineActionsQueue s) →
  opsKeepRetryBound ops s →
  Forall withinRetryBound (offlineActionsQueue (applyOps ops s))
  ∧ ∀ op a,
      a ∈ offlineActionsQueue s → status a = failed →
      op ≠ Clear → op ≠ Remove (id a) →
      (∀ u, op = Update (id a) u → upd_status u = None) →
      ∃ a', a' ∈ offlineActionsQueue (applyOp op s) ∧ status a' = failed
            ∧ (a' = a ∨ ∃ u, op = Update (id a) u ∧ a' = mergeUpdates a u).
Proof.
  intros Hq Hops. split; [by apply keepsRetryBound_steps|].
  intros op a Ha Hfailed Hc Hr Hst.
  destruct (stays_or_merged op s a Ha Hc Hr) as [[Hin _]|(u & -> & Hin)].
  - exists a. split; [done|]. split; [done|]. by left.
  - exists (mergeUpdates a u). split; [done|]. split.
    + simpl. by rewrite (Hst u eq_refl).
    + right. by exists u.
Qed.


Lemma sampleState_within_bound :
  Forall withinRetryBound (offlineActionsQueue sampleState).
Proof. apply Forall_singleton. intros _. simpl. lia. Qed.

Lemma retry_bound_kept_by_disciplined_callers_witness :
  Forall withinRetryBound (offlineActionsQueue sampleState)
  ∧ opsKeepRetryBound
      [Update (id sampleAction) markedFailed;
       Enqueue sampleSource 1700000000002 sampleUpdateNew] sampleState
  ∧ Forall withinRetryBound
      (offlineActionsQueue
         (applyOps [Update (id sampleAction) markedFailed;
                    Enqueue sampleSource 1700000000002 sampleUpdateNew]
                   sampleState)).
Proof.
  assert (opsKeepRetryBound
            [Update (id sampleAction) markedFailed;
             Enqueue sampleSource 1700000000002 sampleUpdateNew] sampleState)
    as Hops.
  { split; [|split; [simpl; lia|exact I]].
    intros a _ _ Hst. discriminate Hst. }
  split; [exact sampleState_within_bound|]. split; [exact Hops|].
  exact (proj1 (retry_bound_kept_by_disciplined_callers _ _
                  sampleState_within_bound Hops)).
Defined.

(** C3 as stated fails on the store: an update may carry any retry
    count, and the action stays pending beyond its bound; and an update
    that carries a status takes a failed action back to pending. *)
Lemma update_overrides_retry_bound :
  Forall withinRetryBound (offlineActionsQueue sampleState)
  ∧ ¬ Forall withinRetryBound
        (offlineActionsQueue
           (applyOps [Update (id sampleAction) fiveRetries] sampleState))
  ∧ status <$> offlineActionsQueue
                 (applyOps [Update (id sampleAction) markedFailed] sampleState)
    = [failed]
  ∧ status <$> offlineActionsQueue
                 (applyOps [Update (id sampleAction) markedFailed;
                            Update (id sampleAction) backToPending]
                           sampleState)
    = [pending].
Proof.
  split; [exact sampleState_within_bound|]. split; [|split].
  - assert (offlineActionsQueue
              (applyOps [Update (id sampleAction) fiveRetries] sampleState)
            = [mergeUpdates sampleAction fiveRetries]) as -> by (by vm_compute).
    intros H. apply Forall_inv in H.
    specialize (H eq_refl). simpl in H. lia.
  - by vm_compute.
  - by vm_compute.
Qed.

(** ** Action ids *)

Lemma pretty_N_char_noUnderscore (x : N) : pretty_N_char x ≠ "_"%char.
Proof. unfold pretty_N_char. by repeat case_match. Qed.

Lemma pretty_N_go_noUnderscore (x : N) (s : string) :
  noUnderscore s → noUnderscore (pretty_N_go x s).
Proof.
  revert s. induction (N.lt_wf_0 x) as [x _ IH]. intros s Hs.
  destruct (decide (x = 0%N)) as [->|Hx].
  - by rewrite pretty_N_go_0.
  - rewrite pretty_N_go_step by lia.
    apply IH.
    + apply N.div_lt; lia.
    + split; [apply pretty_N_char_noUnderscore|done].
Qed.

Lemma pretty_N_noUnderscore (x : N) : noUnderscore (pretty x).
Proof.
  unfold pretty, pretty_N. case_decide.
  - by split.
  - by apply pretty_N_go_noUnderscore.
Qed.

Lemma pretty_Z_noUnderscore (z : Z) : noUnderscore (pretty z).
Proof.
  destruct z as [|p|p]; unfold pretty, pretty_Z.
  - by split.
  - apply pretty_N_noUnderscore.
  - split; [done|]. apply pretty_N_noUnderscore.
Qed.

(** Two texts cut at their first underscore agree part by part. *)
Lemma cut_at_underscore (p1 p2 x1 x2 : string) :
  noUnderscore p1 → noUnderscore p2 →
  p1 +:+ "_" +:+ x1 = p2 +:+ "_" +:+ x2 → p1 = p2 ∧ x1 = x2.
Proof.
  revert p2. induction p1 as [|c p1 IH]; intros [|d p2] H1 H2 E; simpl in *.
  - by injection E.
  - injection E as <- _. by destruct H2.
  - injection E as -> _. by destruct H1.
  - injection E as -> E. destruct H1 as [_ H1], H2 as [_ H2].
    destruct (IH p2 H1 H2 E) as [-> ->]. done.
Qed.

Lemma generateActionId_eq (src1 src2 : IdSource) :
  generateActionId src1 = generateActionId src2
  ↔ id_now src1 = id_now src2
    ∧ substring 2 9 (id_random36 src1) = substring 2 9 (id_random36 src2).
Proof.
  unfold generateActionId. split.
  - intros E. simpl in E. injection E as E.
    apply cut_at_underscore in E as [E1 E2];
      [|apply pretty_Z_noUnderscore..].
    split; [by apply (inj pretty)|done].
  - by intros [-> ->].
Qed.

Lemma ids_after_remove (actionId : string) (q : list OfflineAction) :
  id <$> filter (λ a, id a ≠ actionId) q
  = filter (λ i, i ≠ actionId) (id <$> q).
Proof.
  induction q as [|a q IH]; [done|].
  rewrite fmap_cons. destruct (decide (id a = actionId)) as [E|N].
  - rewrite !filter_cons_False by (by intros ?). exact IH.
  - rewrite !filter_cons_True by done. rewrite fmap_cons. by f_equal.
Qed.

Lemma ids_after_update (actionId : string) (updates : ActionUpdates)
  (q : list OfflineAction) :
  id <$> ((λ a, if decide (id a = actionId) then mergeUpdates a updates else a)
            <$> q)
  = (λ i, if decide (i = actionId) then default i (upd_id updates) else i)
      <$> (id <$> q).
Proof.
  rewrite <- !list_fmap_compose. apply list_fmap_ext. intros _ a _. simpl.
  by destruct (decide (id a = actionId)).
Qed.

(** C8, as the store has it.  The ids of the queued actions change only
    as follows: [addToOfflineQueue] keeps every queued id and appends the
    generated one, [removeFromOfflineQueue] drops the occurrences of its
    argument, [clearOfflineQueue] drops all, [updateQueueAction] keeps
    every id when the updates carry none, and writes the carried id over
    every occurrence of its argument when they carry one. *)
Theorem ids_change_only_by_update_with_id :
  (∀ (op : QueueOp) (s : DataCacheState),
     ¬ writesId op →
     queueIds (applyOp op s)
     = match op with
       | Enqueue src _ _ => queueIds s ++ [generateActionId src]
       | Remove actionId => filter (λ i, i ≠ actionId) (queueIds s)
       | Update _ _ => queueIds s
       | Clear => []
       end)
  ∧ (∀ (actionId newId : string) (updates : ActionUpdates) (s : DataCacheState),
       upd_id updates = Some newId →
       queueIds (updateQueueAction actionId updates s)
       = (λ i, if decide (i = actionId) then newId else i) <$> queueIds s).
Proof.
  split.
  - intros op s Hw. unfold queueIds.
    destruct op as [src now action|actionId|actionId updates|]; cbn [applyOp].
    + by rewrite queue_add, fmap_app.
    + rewrite queue_remove. apply ids_after_remove.
    + rewrite queue_update, ids_after_update.
      rewrite <- (list_fmap_id (id <$> offlineActionsQueue s)) at 2.
      apply list_fmap_ext. intros _ i _.
      destruct (upd_id updates) as [newId|] eqn:E.
      * exfalso. apply Hw. simpl. by rewrite E.
      * simpl. by destruct (decide (i = actionId)).
    + by rewrite queue_clear.
  - intros actionId newId updates s E. unfold queueIds.
    rewrite queue_update, ids_after_update.
    apply list_fmap_ext. intros _ i _. by rewrite E.
Qed.

Lemma ids_change_only_by_update_with_id_witness :
  ¬ writesId (Update "action_1700000000000_4fzyo82mv" fiveRetries)
  ∧ queueIds (applyOp (Update "action_1700000000000_4fzyo82mv" fiveRetries)
                      sampleState)
    = queueIds sampleState
  ∧ upd_id renamed = Some "renamed"
  ∧ queueIds (updateQueueAction "action_1700000000000_4fzyo82mv" renamed
                sampleState)
    = (λ i, if decide (i = "action_1700000000000_4fzyo82mv")
            then "renamed" else i) <$> queueIds sampleState.
Proof.
  assert (¬ writesId (Update "action_1700000000000_4fzyo82mv" fiveRetries))
    as Hw by (simpl; by intros H).
  split; [exact Hw|]. split.
  - exact (proj1 ids_change_only_by_update_with_id _ sampleState Hw).
  - split; [reflexivity|].
    exact (proj2 ids_change_only_by_update_with_id _ _ renamed sampleState
             eq_refl).
Defined.

(** C8 as stated fails on the store by design of the update: an update
    that carries an id replaces the id of a queued action. *)
Lemma update_overwrites_id :
  queueIds sampleState = ["action_1700000000000_4fzyo82mv"]
  ∧ upd_id renamed = Some "renamed"
  ∧ queueIds (applyOp (Update "action_1700000000000_4fzyo82mv" renamed)
                      sampleState)
    = ["renamed"].
Proof. split; [by vm_compute|]. split; [reflexivity|by vm_compute]. Qed.

(** ** Persistence of the cache members *)

Lemma cached_setCached (r : Resource) (data : list Json) (s : DataCacheState) :
  cached r (setCached r data s) = data.
Proof. by destruct r. Qed.

Lemma cached_setCached_ne (r r' : Resource) (data : list Json)
  (s : DataCacheState) :
  r ≠ r' → cached r' (setCached r data s) = cached r' s.
Proof. intros Hne. by destruct r, r'. Qed.

(** C9, as the store has it.  After a setter has replaced the data of a
    resource type, the state holds the new data; the persisted projection
    holds them too for the seven types that [partialize] copies
    (carBrands, carModels, productBrands, categories, products, suppliers,
    distributors); for partners, admins, subscribers, customers and orders
    the projection has no such member and is the same as before the
    mutation. *)
Theorem persisted_members_follow_setters (r : Resource) (data : list Json)
  (s : DataCacheState) :
  cached r (setCached r data s) = data
  ∧ persisted r (partialize (setCached r data s))
    = (if isPersisted r then Some data else None)
  ∧ (isPersisted r = false →
     partialize (setCached r data s) = partialize s
     ∧ ∀ s', persisted r (partialize s') = None).
Proof.
  split; [apply cached_setCached|]. split.
  - by destruct r.
  - intros Hr. split; [by destruct r|]. intros s'. by destruct r.
Qed.

Lemma persisted_members_follow_setters_witness :
  isPersisted Orders = false
  ∧ partialize (setCached Orders [JNum 1] initialState)
    = partialize initialState
  ∧ ∀ s', persisted Orders (partialize s') = None.
Proof.
  split; [reflexivity|].
  exact (proj2 (proj2 (persisted_members_follow_setters
                         Orders [JNum 1] initialState)) eq_refl).
Defined.

(** C9 as stated fails on the store: after [setOrders] the state holds
    the new orders and the persisted projection has no orders at all. *)
Lemma orders_are_not_persisted :
  orders (setOrders [JObj [("id", JStr "o1")]] initialState)
  = [JObj [("id", JStr "o1")]]
  ∧ persisted Orders
      (partialize (setOrders [JObj [("id", JStr "o1")]] initialState))
    ≠ Some [JObj [("id", JStr "o1")]]
  ∧ partialize (setOrders [JObj [("id", JStr "o1")]] initialState)
    = partialize initialState.
Proof. split; [reflexivity|]. split; [discriminate|reflexivity]. Qed.

(** ** Partial sync *)

Section PartialSync.
Import SyncService.

Lemma syncResources_cons (f : ResourceFetch) (rest : list ResourceFetch)
  (s : DataCacheState) :
  syncResources (f :: rest) s
  = ((syncResources rest (syncResource f s).1).1,
     (syncResource f s).2 :: (syncResources rest (syncResource f s).1).2).
Proof.
  simpl. destruct (syncResource f s) as [s1 r]. simpl.
  by destruct (syncResources rest s1).
Qed.

(** The result of a step does not depend on the cache. *)
Lemma syncResource_result (f : ResourceFetch) (s s' : DataCacheState) :
  (syncResource f s).2 = (syncResource f s').2.
Proof. unfold syncResource. by destruct (fetch_outcome f). Qed.

Lemma syncResources_results (fs : list ResourceFetch) (s s0 : DataCacheState) :
  (syncResources fs s).2 = (λ f, (syncResource f s0).2) <$> fs.
Proof.
  revert s. induction fs as [|f rest IH]; intros s; [done|].
  rewrite syncResources_cons, fmap_cons. simpl. f_equal.
  - apply syncResource_result.
  - apply IH.
Qed.

(** A step changes at most the slice of its own resource type. *)
Lemma syncResource_other (f : ResourceFetch) (s : DataCacheState) (r : Resource) :
  fetch_resource f ≠ r → cached r (syncResource f s).1 = cached r s.
Proof.
  intros Hne. unfold syncResource. destruct (fetch_outcome f); simpl; [|done].
  by apply cached_setCached_ne.
Qed.

(** A cycle leaves the slices of the resource types it does not name. *)
Lemma syncResources_absent (fs : list ResourceFetch) (s : DataCacheState)
  (r : Resource) :
  r ∉ fetch_resource <$> fs → cached r (syncResources fs s).1 = cached r s.
Proof.
  revert s. induction fs as [|f rest IH]; intros s Hr; [done|].
  rewrite fmap_cons in Hr. apply not_elem_of_cons in Hr as [Hne Hr].
  rewrite syncResources_cons. simpl. rewrite IH by done.
  by apply syncResource_other.
Qed.

Lemma syncResources_failed (fs : list ResourceFetch) (s : DataCacheState)
  (f : ResourceFetch) (error : string) :
  NoDup (fetch_resource <$> fs) → f ∈ fs →
  fetch_outcome f = FetchFailed error →
  cached (fetch_resource f) (syncResources fs s).1 = cached (fetch_resource f) s.
Proof.
  revert s. induction fs as [|g rest IH]; intros s Hnd Hf Hout.
  { by apply elem_of_nil in Hf. }
  rewrite fmap_cons in Hnd. apply NoDup_cons in Hnd as [Hg Hnd].
  rewrite syncResources_cons. simpl.
  apply elem_of_cons in Hf as [->|Hf].
  - rewrite syncResources_absent by done.
    unfold syncResource. by rewrite Hout.
  - rewrite IH by done. apply syncResource_other.
    intros E. apply Hg. rewrite E. by apply list_elem_of_fmap_2.
Qed.

Lemma syncResources_fetched (fs : list ResourceFetch) (s : DataCacheState)
  (f : ResourceFetch) (data : list Json) :
  NoDup (fetch_resource <$> fs) → f ∈ fs →
  fetch_outcome f = Fetched data →
  cached (fetch_resource f) (syncResources fs s).1 = data.
Proof.
  revert s. induction fs as [|g rest IH]; intros s Hnd Hf Hout.
  { by apply elem_of_nil in Hf. }
  rewrite fmap_cons in Hnd. apply NoDup_cons in Hnd as [Hg Hnd].
  rewrite syncResources_cons. simpl.
  apply elem_of_cons in Hf as [->|Hf].
  - rewrite syncResources_absent by done.
    unfold syncResource. rewrite Hout. simpl. apply cached_setCached.
  - by apply IH.
Qed.

(** C2.  In a cycle that names every resource type at most once, in
    which the fetch of [A] fails and the fetch of [B] succeeds: the slice
    of [A] is the one from before the cycle, the slice of [B] is the
    fetched data, the results of the cycle hold the failure of [A] with
    its error and the success of [B] with its item count, and there is one
    result per resource type of the cycle, so no step was skipped. *)
Theorem partial_sync_isolation (fs : list ResourceFetch) (s : DataCacheState)
  (A B : Resource) (error : string) (data : list Json) (tA tB : Z) :
  NoDup (fetch_resource <$> fs) →
  mkResourceFetch A (FetchFailed error) tA ∈ fs →
  mkResourceFetch B (Fetched data) tB ∈ fs →
  cached A (syncResources fs s).1 = cached A s
  ∧ cached B (syncResources fs s).1 = data
  ∧ mkSyncResult (resourceName A) false None (Some error) tA
    ∈ (syncResources fs s).2
  ∧ mkSyncResult (resourceName B) true (Some (Z.of_nat (length data))) None tB
    ∈ (syncResources fs s).2
  ∧ length (syncResources fs s).2 = length fs.
Proof.
  intros Hnd HA HB. split; [|split; [|split; [|split]]].
  - by apply (syncResources_failed fs s _ error Hnd HA).
  - by apply (syncResources_fetched fs s _ data Hnd HB).
  - rewrite (syncResources_results fs s s).
    by apply (list_elem_of_fmap_2' _ _ _ _ HA).
  - rewrite (syncResources_results fs s s).
    by apply (list_elem_of_fmap_2' _ _ _ _ HB).
  - by rewrite (syncResources_results fs s s), length_fmap.
Qed.

End PartialSync.

Lemma partial_sync_isolation_witness :
  NoDup (SyncService.fetch_resource <$> sampleCycle)
  ∧ cached Products (SyncService.syncResources sampleCycle sampleState).1
    = cached Products sampleState
  ∧ cached Orders (SyncService.syncResources sampleCycle sampleState).1
    = [JObj [("id", JStr "o1")]]
  ∧ SyncService.mkSyncResult "products" false None (Some "HTTP 500")
      1700000000100
    ∈ (SyncService.syncResources sampleCycle sampleState).2
  ∧ SyncService.mkSyncResult "orders" true (Some 1) None 1700000000200
    ∈ (SyncService.syncResources sampleCycle sampleState).2
  ∧ length (SyncService.syncResources sampleCycle sampleState).2
    = length sampleCycle.
Proof.
  assert (NoDup (SyncService.fetch_resource <$> sampleCycle)) as Hnd.
  { apply NoDup_cons. split.
    - intros H. apply list_elem_of_singleton in H. discriminate H.
    - apply NoDup_singleton. }
  split; [exact Hnd|].
  apply (partial_sync_isolation sampleCycle sampleState Products Orders
           "HTTP 500" [JObj [("id", JStr "o1")]]
           1700000000100 1700000000200 Hnd).
  - left.
  - right. left.
Defined.

(** ** Snapshot history *)

Section SnapshotHistory.
Import Snapshots.

Lemma createSnapshot_retains (c : SnapshotCall) (history : list DataSnapshot) :
  createSnapshot c history = takeSnapshot c :: take 4 history.
Proof. reflexivity. Qed.

Lemma createSnapshot_length (c : SnapshotCall) (history : list DataSnapshot) :
  (length (createSnapshot c history) ≤ 5)%nat.
Proof. unfold createSnapshot, maxSnapshots. rewrite length_take. lia. Qed.

Lemma createSnapshots_snoc (calls : list SnapshotCall) (c : SnapshotCall)
  (history : list DataSnapshot) :
  createSnapshots (calls ++ [c]) history
  = createSnapshot c (createSnapshots calls history).
Proof. unfold createSnapshots. by rewrite foldl_snoc. Qed.

(** From the empty history on, the history is the checkpoints of the
    five latest calls, the latest first. *)
Lemma createSnapshots_latest (calls : list SnapshotCall) :
  createSnapshots calls [] = take 5 (reverse (takeSnapshot <$> calls)).
Proof.
  induction calls as [|c calls IH] using rev_ind; [done|].
  rewrite createSnapshots_snoc, IH, fmap_snoc, reverse_snoc.
  rewrite createSnapshot_retains. simpl. f_equal.
  rewrite take_take. by replace (4 `min` 5)%nat with 4%nat by lia.
Qed.

(** C6.  The snapshot history never holds more than five entries,
    whatever calls of [createSnapshot] built it: from the empty history on
    it is the checkpoints of the five latest calls, the latest first.  A
    call on a history of five keeps the four latest, puts the new
    checkpoint in front of them and drops exactly the last entry, the
    oldest; a call on a shorter history drops nothing. *)
Theorem snapshot_history_bounded :
  (∀ calls : list SnapshotCall,
     (length (createSnapshots calls []) ≤ 5)%nat
     ∧ createSnapshots calls [] = take 5 (reverse (takeSnapshot <$> calls)))
  ∧ (∀ (c : SnapshotCall) (history : list DataSnapshot),
       (length (createSnapshot c history) ≤ 5)%nat)
  ∧ (∀ (c : SnapshotCall) (history : list DataSnapshot),
       length history = 5%nat →
       ∃ kept oldest,
         history = kept ++ [oldest]
         ∧ createSnapshot c history = takeSnapshot c :: kept)
  ∧ (∀ (c : SnapshotCall) (history : list DataSnapshot),
       (length history < 5)%nat →
       createSnapshot c history = takeSnapshot c :: history).
Proof.
  split; [|split; [|split]].
  - intros calls. split; [|apply createSnapshots_latest].
    rewrite createSnapshots_latest, length_take. lia.
  - apply createSnapshot_length.
  - intros c history Hlen.
    destruct (drop 4 history) as [|oldest rest] eqn:Hdrop.
    { apply (f_equal length) in Hdrop. rewrite length_drop in Hdrop.
      simpl in Hdrop. lia. }
    assert (rest = []) as ->.
    { apply (f_equal length) in Hdrop. rewrite length_drop in Hdrop.
      simpl in Hdrop. apply nil_length_inv. lia. }
    exists (take 4 history), oldest. split.
    + by rewrite <- Hdrop, take_drop.
    + apply createSnapshot_retains.
  - intros c history Hlen. rewrite createSnapshot_retains.
    by rewrite take_ge by lia.
Qed.

End SnapshotHistory.

Lemma snapshot_history_bounded_witness :
  length fiveSnapshots = 5%nat
  ∧ ∃ kept oldest,
      fiveSnapshots = kept ++ [oldest]
      ∧ Snapshots.createSnapshot (sampleSnapshotCall 6) fiveSnapshots
        = Snapshots.takeSnapshot (sampleSnapshotCall 6) :: kept.
Proof.
  split; [reflexivity|].
  exact (proj1 (proj2 (proj2 snapshot_history_bounded))
           (sampleSnapshotCall 6) fiveSnapshots eq_refl).
Defined.

(** ** Conflict flag *)

Section ConflictFlag.
Import Conflicts.

















End ConflictFlag.

Example confirmed_edit_not_flagged :
  Conflicts.hasConflict
    <$> Conflicts.versions (Conflicts.run confirmedHistory Conflicts.emptyTracker)
          !! ("p1", "products")
  = Some false.
Proof. by vm_compute. Qed.


(** * Further properties of the stores and screens *)

(** ** Cache setters *)

(** X1.  The twelve cache setters overwrite: a second write of a
    resource type hides the first, writing back what was read changes
    nothing, and writes of two different resource types can be swapped; a
    setter changes no other cache member, nor the queue, nor the sync
    members. *)
Theorem cache_setters_overwrite_and_commute (r r' : Resource)
  (data data' : list Json) (s : DataCacheState) :
  setCached r data (setCached r data' s) = setCached r data s
  ∧ setCached r (cached r s) s = s
  ∧ (r ≠ r' →
     setCached r data (setCached r' data' s)
     = setCached r' data' (setCached r data s)
     ∧ cached r' (setCached r data s) = cached r' s)
  ∧ offlineActionsQueue (setCached r data s) = offlineActionsQueue s
  ∧ isProcessingQueue (setCached r data s) = isProcessingQueue s
  ∧ syncStatus (setCached r data s) = syncStatus s
  ∧ lastSyncTime (setCached r data s) = lastSyncTime s
  ∧ isOnline (setCached r data s) = isOnline s
  ∧ syncError (setCached r data s) = syncError s.
Proof.
  split; [by destruct r|]. split; [by destruct r, s|]. split.
  - intros Hne. split; [|by apply cached_setCached_ne].
    destruct r, r'; try reflexivity; by destruct Hne.
  - by destruct r.
Qed.

Lemma cache_setters_overwrite_and_commute_witness :
  Products ≠ Orders
  ∧ setCached Products [JNum 1] (setCached Orders [JNum 2] sampleState)
    = setCached Orders [JNum 2] (setCached Products [JNum 1] sampleState)
  ∧ cached Orders (setCached Products [JNum 1] sampleState)
    = cached Orders sampleState.
Proof.
  split; [discriminate|].
  apply (cache_setters_overwrite_and_commute
           Products Orders [JNum 1] [JNum 2] sampleState).
  discriminate.
Defined.

(** X2.  The queue operations and the cache setters do not see each
    other: a queue operation leaves every cache member and every sync
    member as it was, and applying it before or after a cache setter gives
    the same state. *)
Theorem queue_operations_leave_cache (op : QueueOp) (r : Resource)
  (data : list Json) (s : DataCacheState) :
  cached r (applyOp op s) = cached r s
  ∧ sameOutsideQueue s (applyOp op s)
  ∧ applyOp op (setCached r data s) = setCached r data (applyOp op s).
Proof.
  split; [by destruct op, r|]. split; [by destruct op|].
  by destruct op, r.
Qed.

(** ** Length of the queue *)

Lemma filter_split_length {A} (P : A → Prop) `{!∀ x, Decision (P x)}
  (l : list A) :
  (length (filter (λ x, ¬ P x) l) + length (filter P l) = length l)%nat.
Proof.
  induction l as [|x l IH]; [done|].
  destruct (decide (P x)) as [Hx|Hx].
  - rewrite (filter_cons_False (λ x, ¬ P x)) by (by intros Hn; apply Hn).
    rewrite (filter_cons_True P) by done. simpl. lia.
  - rewrite (filter_cons_True (λ x, ¬ P x)) by done.
    rewrite (filter_cons_False P) by done. simpl. lia.
Qed.

(** X3.  [getQueueLength] under the queue operations:
    [removeFromOfflineQueue] shortens the queue by the number of queued
    actions that carry the id (none, one or several), [updateQueueAction]
    keeps the length, [clearOfflineQueue] leaves length 0 and
    [addToOfflineQueue] adds one. *)
Theorem queue_length_accounting (actionId : string) (updates : ActionUpdates)
  (src : IdSource) (now : Z) (action : NewAction) (s : DataCacheState) :
  (getQueueLength (removeFromOfflineQueue actionId s)
   + length (filter (λ a, id a = actionId) (offlineActionsQueue s))
   = getQueueLength s)%nat
  ∧ getQueueLength (updateQueueAction actionId updates s) = getQueueLength s
  ∧ getQueueLength (clearOfflineQueue s) = 0%nat
  ∧ getQueueLength (addToOfflineQueue src now action s)
    = S (getQueueLength s).
Proof.
  unfold getQueueLength. split; [|split; [|split]].
  - rewrite queue_remove.
    apply (filter_split_length (λ a, id a = actionId)).
  - by rewrite queue_update, length_fmap.
  - by rewrite queue_clear.
  - rewrite queue_add, length_app. simpl. lia.
Qed.

(** ** Removal by id *)

Lemma queue_of_set (q : list OfflineAction) (s : DataCacheState) :
  offlineActionsQueue (set_offlineActionsQueue q s) = q.
Proof. reflexivity. Qed.

Lemma set_queue_twice (q q' : list OfflineAction) (s : DataCacheState) :
  set_offlineActionsQueue q (set_offlineActionsQueue q' s)
  = set_offlineActionsQueue q s.
Proof. reflexivity. Qed.

(** X4.  After [removeFromOfflineQueue] the queue holds exactly the
    actions with another id, in their old order; removing the same id
    again changes nothing, and removals of two ids can be swapped. *)
Theorem remove_takes_every_match (actionId actionId' : string)
  (s : DataCacheState) :
  (∀ a, a ∈ offlineActionsQueue (removeFromOfflineQueue actionId s)
        ↔ a ∈ offlineActionsQueue s ∧ id a ≠ actionId)
  ∧ offlineActionsQueue (removeFromOfflineQueue actionId s)
      `sublist_of` offlineActionsQueue s
  ∧ removeFromOfflineQueue actionId (removeFromOfflineQueue actionId s)
    = removeFromOfflineQueue actionId s
  ∧ removeFromOfflineQueue actionId (removeFromOfflineQueue actionId' s)
    = removeFromOfflineQueue actionId' (removeFromOfflineQueue actionId s).
Proof.
  split; [|split; [|split]].
  - intros a. rewrite queue_remove, list_elem_of_filter. tauto.
  - rewrite queue_remove. apply sublist_filter.
  - unfold removeFromOfflineQueue. rewrite set_queue_twice, queue_of_set.
    f_equal. by apply list_filter_filter_l.
  - unfold removeFromOfflineQueue. rewrite !set_queue_twice, !queue_of_set.
    f_equal. rewrite !list_filter_filter. apply list_filter_iff. tauto.
Qed.

Lemma not_queued_no_match (actionId : string) (s : DataCacheState) :
  actionId ∉ queueIds s → ∀ a, a ∈ offlineActionsQueue s → id a ≠ actionId.
Proof.
  intros Hno a Ha E. apply Hno. unfold queueIds. rewrite <- E.
  by apply list_elem_of_fmap_2.
Qed.

(** X5.  Enqueue, then remove by the generated id: when no queued action
    had that id, the store is back in the state before the enqueue; when
    one had it, the removal also takes the older actions with that id and
    the queue ends shorter than it was. *)
Theorem add_then_remove_round_trip (src : IdSource) (now : Z)
  (action : NewAction) (s : DataCacheState) :
  (generateActionId src ∉ queueIds s →
   removeFromOfflineQueue (generateActionId src)
     (addToOfflineQueue src now action s) = s)
  ∧ (generateActionId src ∈ queueIds s →
     (getQueueLength
        (removeFromOfflineQueue (generateActionId src)
           (addToOfflineQueue src now action s))
      < getQueueLength s)%nat).
Proof.
  split.
  - intros Hfresh.
    rewrite <- (remove_no_match (generateActionId src) s) at 2
      by (by apply not_queued_no_match).
    unfold removeFromOfflineQueue, addToOfflineQueue.
    rewrite !set_queue_twice, !queue_of_set. f_equal.
    rewrite filter_app, filter_cons_False by (by intros Hn; apply Hn).
    by rewrite filter_nil, app_nil_r.
  - intros Hin. unfold getQueueLength, queueIds in *.
    apply list_elem_of_fmap in Hin as (a & Ha & Hin).
    rewrite queue_remove, queue_add, filter_app.
    rewrite (filter_cons_False _ (newOfflineAction src now action))
      by (by intros Hn; apply Hn).
    rewrite filter_nil, app_nil_r.
    apply (length_filter_lt _ _ a); [done|]. intros Hn. by apply Hn.
Qed.

Lemma add_then_remove_round_trip_witness :
  (generateActionId (mkIdSource 1700000000005 "0.4fzyo82mvyr")
     ∉ queueIds sampleState)
  ∧ removeFromOfflineQueue
      (generateActionId (mkIdSource 1700000000005 "0.4fzyo82mvyr"))
      (addToOfflineQueue (mkIdSource 1700000000005 "0.4fzyo82mvyr")
         1700000000005 sampleUpdateNew sampleState)
    = sampleState
  ∧ generateActionId sampleSourceTwin ∈ queueIds sampleState
  ∧ (getQueueLength
       (removeFromOfflineQueue (generateActionId sampleSourceTwin)
          (addToOfflineQueue sampleSourceTwin 1700000000002 sampleUpdateNew
             sampleState))
     < getQueueLength sampleState)%nat.
Proof.
  assert (generateActionId (mkIdSource 1700000000005 "0.4fzyo82mvyr")
            ∉ queueIds sampleState) as Hfresh.
  { intros Hin. apply list_elem_of_singleton in Hin. discriminate Hin. }
  assert (generateActionId sampleSourceTwin ∈ queueIds sampleState) as Hin
    by left.
  split; [exact Hfresh|]. split.
  { exact (proj1 (add_then_remove_round_trip
                    (mkIdSource 1700000000005 "0.4fzyo82mvyr")
                    1700000000005 sampleUpdateNew sampleState) Hfresh). }
  split; [exact Hin|].
  exact (proj2 (add_then_remove_round_trip
                  sampleSourceTwin 1700000000002 sampleUpdateNew sampleState)
           Hin).
Defined.

(** ** Composition of updates *)

Lemma mergeUpdates_none (a : OfflineAction) : mergeUpdates a noUpdates = a.
Proof. by destruct a. Qed.

Lemma mergeUpdates_twice (a : OfflineAction) (u : ActionUpdates) :
  mergeUpdates (mergeUpdates a u) u = mergeUpdates a u.
Proof.
  destruct u as [[] [] [] [] [] [] [] [] [] []]; reflexivity.
Qed.

Lemma mergeUpdates_spread (a : OfflineAction) (u1 u2 : ActionUpdates) :
  mergeUpdates (mergeUpdates a u1) u2 = mergeUpdates a (spreadUpdates u1 u2).
Proof.
  destruct u2 as [[] [] [] [] [] [] [] [] [] []]; reflexivity.
Qed.

Lemma state_with_queue (s : DataCacheState) (q q' : list OfflineAction) :
  q = q' → set_offlineActionsQueue q s = set_offlineActionsQueue q' s.
Proof. by intros ->. Qed.

(** X6.  [updateQueueAction] composes like the object spread it is made
    of: an update with the empty object changes nothing; the same update
    twice is the update once; two updates of one id are the single update
    with [{ ...u1, ...u2 }], provided the first does not move the action to
    another id; and when the first does, the second finds nothing under
    the old id that the first had not already renamed. *)
Theorem updates_compose_like_spread (actionId : string)
  (u1 u2 : ActionUpdates) (s : DataCacheState) :
  updateQueueAction actionId noUpdates s = s
  ∧ updateQueueAction actionId u1 (updateQueueAction actionId u1 s)
    = updateQueueAction actionId u1 s
  ∧ (upd_id u1 = None ∨ upd_id u1 = Some actionId →
     updateQueueAction actionId u2 (updateQueueAction actionId u1 s)
     = updateQueueAction actionId (spreadUpdates u1 u2) s)
  ∧ (∀ newId, upd_id u1 = Some newId → newId ≠ actionId →
     updateQueueAction actionId u2 (updateQueueAction actionId u1 s)
     = updateQueueAction actionId u1 s).
Proof.
  split; [|split; [|split]].
  - unfold updateQueueAction.
    assert ((λ a, if decide (id a = actionId)
                  then mergeUpdates a noUpdates else a)
              <$> offlineActionsQueue s
            = offlineActionsQueue s) as ->; [|apply set_queue_same].
    induction (offlineActionsQueue s) as [|a q IH]; [done|].
    rewrite fmap_cons, IH. f_equal.
    destruct (decide (id a = actionId)); [apply mergeUpdates_none|done].
  - unfold updateQueueAction. rewrite set_queue_twice, queue_of_set.
    apply state_with_queue. rewrite <- list_fmap_compose.
    apply list_fmap_ext. intros _ a _. simpl.
    destruct (decide (id a = actionId)) as [E|N].
    + destruct (decide (id (mergeUpdates a u1) = actionId));
        [apply mergeUpdates_twice|done].
    + by destruct (decide (id a = actionId)).
  - intros Hid. unfold updateQueueAction.
    rewrite set_queue_twice, queue_of_set.
    apply state_with_queue. rewrite <- list_fmap_compose.
    apply list_fmap_ext. intros _ a _. simpl.
    destruct (decide (id a = actionId)) as [E|N].
    + assert (id (mergeUpdates a u1) = actionId) as E'.
      { simpl. by destruct Hid as [-> | ->]. }
      destruct (decide (id (mergeUpdates a u1) = actionId)); [|done].
      apply mergeUpdates_spread.
    + by destruct (decide (id a = actionId)).
  - intros newId Hid Hne. unfold updateQueueAction.
    rewrite set_queue_twice, queue_of_set.
    apply state_with_queue. rewrite <- list_fmap_compose.
    apply list_fmap_ext. intros _ a _. simpl.
    destruct (decide (id a = actionId)) as [E|N].
    + assert (id (mergeUpdates a u1) ≠ actionId) as E'.
      { simpl. by rewrite Hid. }
      by destruct (decide (id (mergeUpdates a u1) = actionId)).
    + by destruct (decide (id a = actionId)).
Qed.

Lemma updates_compose_like_spread_witness :
  (upd_id markedFailed = None ∨ upd_id markedFailed = Some (id sampleAction))
  ∧ updateQueueAction (id sampleAction) fiveRetries
      (updateQueueAction (id sampleAction) markedFailed sampleState)
    = updateQueueAction (id sampleAction)
        (spreadUpdates markedFailed fiveRetries) sampleState
  ∧ upd_id renamed = Some "renamed"
  ∧ "renamed" ≠ id sampleAction
  ∧ updateQueueAction (id sampleAction) fiveRetries
      (updateQueueAction (id sampleAction) renamed sampleState)
    = updateQueueAction (id sampleAction) renamed sampleState.
Proof.
  assert (upd_id markedFailed = None
          ∨ upd_id markedFailed = Some (id sampleAction)) as H1 by (by left).
  assert ("renamed" ≠ id sampleAction) as H2 by discriminate.
  split; [exact H1|]. split.
  { exact (proj1 (proj2 (proj2 (updates_compose_like_spread
             (id sampleAction) markedFailed fiveRetries sampleState))) H1). }
  split; [reflexivity|]. split; [exact H2|].
  exact (proj2 (proj2 (proj2 (updates_compose_like_spread
           (id sampleAction) renamed fiveRetries sampleState)))
           "renamed" eq_refl H2).
Defined.

(** ** What is persisted *)

Lemma partialize_dispatch (act : StoreAction) (s s' : DataCacheState) :
  partialize s = partialize s' →
  partialize (dispatch act s) = partialize (dispatch act s').
Proof.
  intros E. destruct s, s'. injection E as -> -> -> -> -> -> -> -> ->.
  destruct act as [| | | |op| |r data]; try reflexivity.
  - by destruct op.
  - by destruct r.
Qed.

(** X7.  The persisted projection evolves on its own: what [partialize]
    yields after any sequence of store actions is determined by what it
    yielded before, whatever the members it leaves out (online flag, sync
    status and error, processing flag, partners, admins, subscribers,
    customers, orders) hold; and an action that writes only such members
    leaves the projection as it was. *)
Theorem persisted_projection_is_autonomous (acts : list StoreAction)
  (s s' : DataCacheState) :
  partialize s = partialize s' →
  partialize (dispatchAll acts s) = partialize (dispatchAll acts s')
  ∧ ∀ act, writesTransientOnly act = true →
           partialize (dispatch act s) = partialize s.
Proof.
  intros E. split.
  - revert s s' E. induction acts as [|act acts IH]; intros s s' E; [done|].
    apply (IH (dispatch act s) (dispatch act s')).
    by apply partialize_dispatch.
  - intros act Ht.
    destruct act as [| | | |op| |r data]; try done.
    by destruct r.
Qed.

Lemma persisted_projection_is_autonomous_witness :
  partialize sampleState
  = partialize (setOnline false (setOrders [JNum 7] sampleState))
  ∧ partialize
      (dispatchAll [SetCache Products [JNum 1]; QueueAction Clear] sampleState)
    = partialize
        (dispatchAll [SetCache Products [JNum 1]; QueueAction Clear]
           (setOnline false (setOrders [JNum 7] sampleState))).
Proof.
  split; [reflexivity|].
  exact (proj1 (persisted_projection_is_autonomous
                  [SetCache Products [JNum 1]; QueueAction Clear]
                  sampleState
                  (setOnline false (setOrders [JNum 7] sampleState))
                  eq_refl)).
Defined.

(** ** Distinct ids and untouched retry state *)

(** X8.  Pairwise distinct ids are kept by every queue operation that
    writes no id, as long as each enqueue generates an id that is not yet
    queued: removal, clearing and updates without an [id] member cannot
    introduce a duplicate. *)
Theorem distinct_ids_kept (op : QueueOp) (s : DataCacheState) :
  NoDup (queueIds s) →
  ¬ writesId op →
  (∀ src now action, op = Enqueue src now action →
                     generateActionId src ∉ queueIds s) →
  NoDup (queueIds (applyOp op s)).
Proof.
  intros Hnd Hw Hfresh. unfold queueIds in *.
  destruct op as [src now action|actionId|actionId updates|]; cbn [applyOp].
  - rewrite queue_add, fmap_app. apply NoDup_app. split; [done|]. split.
    + intros i Hi Hi'. apply list_elem_of_singleton in Hi'. subst i.
      by apply (Hfresh src now action).
    + apply NoDup_singleton.
  - rewrite queue_remove, ids_after_remove. by apply NoDup_filter.
  - rewrite queue_update, ids_after_update.
    replace ((λ i, if decide (i = actionId)
                   then default i (upd_id updates) else i)
               <$> (id <$> offlineActionsQueue s))
      with (id <$> offlineActionsQueue s); [done|].
    rewrite <- (list_fmap_id (id <$> offlineActionsQueue s)) at 1.
    apply list_fmap_ext. intros _ i _. simpl.
    destruct (upd_id updates) as [newId|] eqn:E.
    + exfalso. apply Hw. simpl. by rewrite E.
    + by destruct (decide (i = actionId)).
  - rewrite queue_clear. constructor.
Qed.

Lemma distinct_ids_kept_witness :
  NoDup (queueIds sampleState)
  ∧ ¬ writesId (Enqueue (mkIdSource 1700000000005 "0.4fzyo82mvyr")
                        1700000000005 sampleUpdateNew)
  ∧ NoDup (queueIds
             (applyOp (Enqueue (mkIdSource 1700000000005 "0.4fzyo82mvyr")
                               1700000000005 sampleUpdateNew)
                      sampleState)).
Proof.
  assert (NoDup (queueIds sampleState)) as Hnd by apply NoDup_singleton.
  assert (¬ writesId (Enqueue (mkIdSource 1700000000005 "0.4fzyo82mvyr")
                              1700000000005 sampleUpdateNew)) as Hw
    by (by intros H).
  split; [exact Hnd|]. split; [exact Hw|].
  apply (distinct_ids_kept _ sampleState Hnd Hw).
  intros src now action [= <- _ _] Hin.
  apply list_elem_of_singleton in Hin. discriminate Hin.
Defined.

Lemma untried_step (op : QueueOp) (s : DataCacheState) :
  isUpdate op = false →
  Forall untried (offlineActionsQueue s) →
  Forall untried (offlineActionsQueue (applyOp op s)).
Proof.
  intros Hop Hq.
  destruct op as [src now action|actionId|actionId updates|]; cbn [applyOp].
  - rewrite queue_add. apply Forall_app. split; [done|].
    by apply Forall_singleton.
  - rewrite queue_remove. apply Forall_forall. intros a Ha.
    apply list_elem_of_filter in Ha as [_ Ha].
    by eapply Forall_forall in Hq.
  - discriminate Hop.
  - rewrite queue_clear. constructor.
Qed.

(** X9.  Only [updateQueueAction] moves an action out of its initial
    retry state: after any sequence of queue operations without an update,
    started from the initial store, every queued action is pending with
    retry count 0, and so is every action of a queue that was so before. *)
Theorem only_updates_touch_retry_state (ops : list QueueOp) (s : DataCacheState) :
  Forall (λ op, isUpdate op = false) ops →
  Forall untried (offlineActionsQueue (applyOps ops initialState))
  ∧ (Forall untried (offlineActionsQueue s) →
     Forall untried (offlineActionsQueue (applyOps ops s))).
Proof.
  intros Hops.
  assert (∀ s0, Forall untried (offlineActionsQueue s0) →
                Forall untried (offlineActionsQueue (applyOps ops s0))) as H.
  { induction Hops as [|op ops Hop _ IH]; intros s0 Hq; [done|].
    rewrite applyOps_cons. apply IH. by apply untried_step. }
  split; [apply H; constructor|apply H].
Qed.

Lemma only_updates_touch_retry_state_witness :
  Forall (λ op, isUpdate op = false)
    [Enqueue sampleSource 1700000000001 sampleNew; Remove "other"]
  ∧ Forall untried
      (offlineActionsQueue
         (applyOps [Enqueue sampleSource 1700000000001 sampleNew;
                    Remove "other"] initialState)).
Proof.
  assert (Forall (λ op, isUpdate op = false)
            [Enqueue sampleSource 1700000000001 sampleNew; Remove "other"])
    as Hops by (by repeat constructor).
  split; [exact Hops|].
  exact (proj1 (only_updates_touch_retry_state _ initialState Hops)).
Defined.

(** ** The auth store *)

Section Auth.
Import AuthStore.

Lemma authenticated_step (a : AuthAction) (s : AuthState) :
  isAuthenticated s = bool_decide (is_Some (currentUser s)) →
  isAuthenticated (act a s) = bool_decide (is_Some (currentUser (act a s))).
Proof.
  intros Hs. destruct a as [[u|] token|token|r|hydrated|]; simpl; try done.
Qed.

(** X10.  In every state that the auth store reaches from its initial
    state, through any sequence of its actions, [isAuthenticated] is true
    exactly when a user is stored. *)
Theorem authenticated_iff_user_stored (acts : list AuthAction) :
  isAuthenticated (actAll acts initialAuth) = true
  ↔ is_Some (currentUser (actAll acts initialAuth)).
Proof.
  assert (∀ s, isAuthenticated s = bool_decide (is_Some (currentUser s)) →
               isAuthenticated (actAll acts s)
               = bool_decide (is_Some (currentUser (actAll acts s)))) as H.
  { induction acts as [|a acts IH]; intros s Hs; [done|].
    apply (IH (act a s)). by apply authenticated_step. }
  rewrite (H initialAuth) by done. apply bool_decide_eq_true.
Qed.

(** X11.  Who may open the admin panel: exactly the roles owner, partner
    and admin, so everyone who may open the owner interface; nobody after
    [logout] or after [setUser(null)]; and not a user whose record has no
    role, whatever its [is_admin] flag says. *)
Theorem admin_panel_access :
  (∀ r, canAccessAdminPanel r = true ↔ r = owner ∨ r = partner ∨ r = admin)
  ∧ (∀ r, canAccessOwnerInterface r = true → canAccessAdminPanel r = true)
  ∧ (∀ s, canAccessAdminPanel (userRole (logout s)) = false)
  ∧ (∀ token s, canAccessAdminPanel (userRole (setUser None token s)) = false)
  ∧ (∀ u token s,
       role u = None →
       canAccessAdminPanel (userRole (setUser (Some u) token s)) = false)
  ∧ (∀ u r token s,
       role u = Some r →
       canAccessAdminPanel (userRole (setUser (Some u) token s))
       = canAccessAdminPanel r).
Proof.
  split; [|split; [|split; [|split; [|split]]]].
  - intros r. destruct r; split; try done; try (intros _; eauto; fail);
      intros [H|[H|H]]; discriminate H.
  - intros r. by destruct r.
  - done.
  - done.
  - intros u token s Hr. simpl. by rewrite Hr.
  - intros u r token s Hr. simpl. by rewrite Hr.
Qed.

Lemma admin_panel_access_witness :
  role flaggedUser = None
  ∧ is_admin flaggedUser = Some true
  ∧ canAccessAdminPanel
      (userRole (setUser (Some flaggedUser) (Some "token-1") initialAuth))
    = false.
Proof.
  split; [reflexivity|]. split; [reflexivity|].
  exact (proj1 (proj2 (proj2 (proj2 (proj2 admin_panel_access))))
           flaggedUser (Some "token-1") initialAuth eq_refl).
Defined.

Lemma setUser_token (u : option User) (token : option string) (s : AuthState) :
  truthy (sessionToken s) = true →
  truthy (sessionToken (setUser u token s)) = true.
Proof. intros Hs. simpl. by destruct (truthy token) eqn:E. Qed.

(** X12.  [setUser] never gives up a session token: it replaces the
    stored token only by a non-empty one, so after any number of [setUser]
    calls on a store with a non-empty token the token is still non-empty.
    In particular [setUser(null)] leaves a state that is not authenticated
    but still holds the token, with role user; [logout] is what clears the
    token and sets role guest. *)
Theorem setUser_never_drops_token (acts : list AuthAction) (s : AuthState) :
  Forall (λ a, isSetUser a = true) acts →
  truthy (sessionToken s) = true →
  truthy (sessionToken (actAll acts s)) = true
  ∧ sessionToken (setUser None None s) = sessionToken s
  ∧ isAuthenticated (setUser None None s) = false
  ∧ userRole (setUser None None s) = user
  ∧ sessionToken (logout s) = None
  ∧ userRole (logout s) = guest.
Proof.
  intros Hacts Hs. split; [|done].
  revert s Hs. induction Hacts as [|a acts Ha _ IH]; intros s Hs; [done|].
  apply (IH (act a s)).
  destruct a as [u token| | | |]; try discriminate Ha.
  by apply setUser_token.
Qed.

Lemma setUser_never_drops_token_witness :
  Forall (λ a, isSetUser a = true)
    [SetUser None None; SetUser (Some flaggedUser) (Some "")]
  ∧ truthy (sessionToken signedIn) = true
  ∧ truthy (sessionToken
              (actAll [SetUser None None; SetUser (Some flaggedUser) (Some "")]
                      signedIn))
    = true.
Proof.
  assert (Forall (λ a, isSetUser a = true)
            [SetUser None None; SetUser (Some flaggedUser) (Some "")]) as Ha
    by (by repeat constructor).
  split; [exact Ha|]. split; [reflexivity|].
  exact (proj1 (setUser_never_drops_token _ signedIn Ha eq_refl)).
Defined.

Lemma partialize_act (a : AuthAction) (s s' : AuthState) :
  partialize s = partialize s' →
  partialize (act a s) = partialize (act a s').
Proof.
  intros E. destruct s, s'. injection E as -> -> -> ->.
  by destruct a.
Qed.

Lemma partialize_filtered (acts : list AuthAction) (s s' : AuthState) :
  partialize s = partialize s' →
  partialize (actAll acts s)
  = partialize (actAll (filter (λ a, isSetHasHydrated a = false) acts) s').
Proof.
  revert s s'. induction acts as [|a acts IH]; intros s s' E; [done|].
  destruct (decide (isSetHasHydrated a = false)) as [Ha|Ha].
  - rewrite filter_cons_True by done.
    apply (IH (act a s) (act a s')). by apply partialize_act.
  - rewrite filter_cons_False by done.
    apply (IH (act a s) s').
    destruct a; try (by destruct Ha). exact E.
Qed.

(** X13.  The hydration flag is not part of what the auth store
    persists: dropping every [setHasHydrated] from a sequence of actions
    does not change the persisted projection, and neither does the
    rehydration callback, which sets the flag exactly when it is given a
    state.  No other action writes the flag; [logout] keeps it. *)
Theorem hydration_flag_not_persisted (acts : list AuthAction) (s : AuthState)
  (rehydrated : bool) :
  partialize (actAll acts s)
  = partialize (actAll (filter (λ a, isSetHasHydrated a = false) acts) s)
  ∧ partialize (onRehydrateStorage rehydrated s) = partialize s
  ∧ _hasHydrated (onRehydrateStorage rehydrated s)
    = (rehydrated || _hasHydrated s)
  ∧ ∀ a, isSetHasHydrated a = false → _hasHydrated (act a s) = _hasHydrated s.
Proof.
  split; [by apply partialize_filtered|]. split; [by destruct rehydrated|].
  split; [by destruct rehydrated|].
  intros a Ha. by destruct a.
Qed.

End Auth.

Lemma hydration_flag_not_persisted_witness :
  AuthStore.isSetHasHydrated AuthStore.Logout = false
  ∧ AuthStore._hasHydrated
      (AuthStore.act AuthStore.Logout
         (AuthStore.onRehydrateStorage true signedIn))
    = AuthStore._hasHydrated (AuthStore.onRehydrateStorage true signedIn).
Proof.
  split; [reflexivity|].
  exact (proj2 (proj2 (proj2 (hydration_flag_not_persisted
           [] (AuthStore.onRehydrateStorage true signedIn) true)))
           AuthStore.Logout eq_refl).
Defined.

(** ** The image uploader *)

Section Images.
Import ImageUploader.

Lemma slice0_fits {A} (n : Z) (l : list A) :
  Z.of_nat (length l) ≤ n → slice0 n l = l.
Proof.
  intros Hn. unfold slice0.
  destruct (n <? 0) eqn:E; [lia|]. apply take_ge. lia.
Qed.

Lemma slice0_length {A} (n : Z) (l : list A) :
  0 ≤ n → Z.of_nat (length (slice0 n l)) ≤ n.
Proof.
  intros Hn. unfold slice0.
  destruct (n <? 0) eqn:E; [lia|]. rewrite length_take. lia.
Qed.

Lemma slice0_prefix {A} (n : Z) (l : list A) : slice0 n l `prefix_of` l.
Proof. unfold slice0. destruct (n <? 0); apply prefix_take. Qed.

(** X14.  In multiple mode a finished upload hands on the old images
    followed by the uploaded ones, cut after [maxImages] (for a limit of at
    least 0): every place below the limit holds what the old images
    followed by the uploaded ones hold there, the number of images is the
    smaller of the limit and the number of old and uploaded images
    together, so never more than [maxImages], and the old images all stay,
    in place, when they were within the limit. *)
Theorem upload_respects_limit (value : Value) (maxImages : Z)
  (urls : list string) :
  0 ≤ maxImages →
  ∃ kept,
    onSuccess multiple value maxImages urls = Some (Urls kept)
    ∧ kept = take (Z.to_nat maxImages) (currentUrls value ++ urls)
    ∧ (∀ i : nat, Z.of_nat i < maxImages →
                  kept !! i = (currentUrls value ++ urls) !! i)
    ∧ (∀ i : nat, maxImages ≤ Z.of_nat i → kept !! i = None)
    ∧ Z.of_nat (length kept)
      = Z.min maxImages (Z.of_nat (length (currentUrls value) + length urls))
    ∧ Z.of_nat (length kept) ≤ maxImages
    ∧ kept `prefix_of` (currentUrls value ++ urls)
    ∧ (Z.of_nat (length (currentUrls value)) ≤ maxImages →
       currentUrls value `prefix_of` kept)
    ∧ (Z.of_nat (length (currentUrls value) + length urls) ≤ maxImages →
       kept = currentUrls value ++ urls).
Proof.
  intros Hmax. exists (slice0 maxImages (currentUrls value ++ urls)).
  assert (slice0 maxImages (currentUrls value ++ urls)
          = take (Z.to_nat maxImages) (currentUrls value ++ urls)) as Hk.
  { unfold slice0. destruct (maxImages <? 0) eqn:E; [lia|done]. }
  split; [done|]. split; [exact Hk|]. split; [|split; [|split]].
  - intros i Hi. rewrite Hk. apply lookup_take_lt. lia.
  - intros i Hi. rewrite Hk. apply lookup_take_ge. lia.
  - rewrite Hk, length_take, length_app. lia.
  - split; [by apply slice0_length|]. split; [apply slice0_prefix|]. split.
    + intros Hfit. rewrite Hk, take_app.
      rewrite (take_ge (currentUrls value)) by lia.
      by apply prefix_app_r.
    + intros Hfit. apply slice0_fits. rewrite length_app. lia.
Qed.

Lemma upload_respects_limit_witness :
  0 ≤ 4
  ∧ onSuccess multiple threeImages 4 ["d.jpg"; "e.jpg"]
    = Some (Urls ["a.jpg"; "b.jpg"; "c.jpg"; "d.jpg"])
  ∧ ∃ kept,
      onSuccess multiple threeImages 4 ["d.jpg"; "e.jpg"] = Some (Urls kept)
      ∧ kept = take (Z.to_nat 4) (currentUrls threeImages ++ ["d.jpg"; "e.jpg"])
      ∧ (∀ i : nat, Z.of_nat i < 4 →
                    kept !! i
                    = (currentUrls threeImages ++ ["d.jpg"; "e.jpg"]) !! i)
      ∧ (∀ i : nat, 4 ≤ Z.of_nat i → kept !! i = None)
      ∧ Z.of_nat (length kept)
        = Z.min 4 (Z.of_nat (length (currentUrls threeImages)
                             + length ["d.jpg"; "e.jpg"]))
      ∧ Z.of_nat (length kept) ≤ 4
      ∧ kept `prefix_of` (currentUrls threeImages ++ ["d.jpg"; "e.jpg"])
      ∧ (Z.of_nat (length (currentUrls threeImages)) ≤ 4 →
         currentUrls threeImages `prefix_of` kept)
      ∧ (Z.of_nat (length (currentUrls threeImages)
                   + length ["d.jpg"; "e.jpg"]) ≤ 4 →
         kept = currentUrls threeImages ++ ["d.jpg"; "e.jpg"]).
Proof.
  assert (0 ≤ 4) as H by lia.
  split; [exact H|]. split; [reflexivity|].
  exact (upload_respects_limit threeImages 4 ["d.jpg"; "e.jpg"] H).
Defined.

(** X15.  The two guards of multiple mode agree with the add button:
    the gallery and the camera are refused exactly when [canAddMore] is
    false.  When the gallery is opened it is asked for the number of
    images that still fit, and an upload of at most that many is added
    whole; a photo taken when the camera was not refused is added whole as
    well. *)
Theorem guards_leave_room (value : Value) (maxImages : Z)
  (url : option string) :
  (handlePickFromGallery multiple value maxImages = MaxReached
   ↔ canAddMore value maxImages = false)
  ∧ (handleTakePhoto multiple value maxImages url = None
     ↔ canAddMore value maxImages = false)
  ∧ (∀ remaining urls,
       handlePickFromGallery multiple value maxImages = PickMultiple remaining →
       Z.of_nat (length urls) ≤ remaining →
       remaining = maxImages - Z.of_nat (length (currentUrls value))
       ∧ onSuccess multiple value maxImages urls
         = Some (Urls (currentUrls value ++ urls)))
  ∧ (∀ change,
       handleTakePhoto multiple value maxImages url = Some (Some change) →
       ∃ photo, url = Some photo ∧ photo ≠ ""
                ∧ change = Urls (currentUrls value ++ [photo])).
Proof.
  unfold handlePickFromGallery, handleTakePhoto, canAddMore.
  split; [|split; [|split]].
  - destruct (maxImages - Z.of_nat (length (currentUrls value)) <=? 0) eqn:E;
      split; try done; intros H; lia.
  - destruct (maxImages <=? Z.of_nat (length (currentUrls value))) eqn:E;
      split; try done; intros H; lia.
  - intros remaining urls Hpick Hlen.
    destruct (maxImages - Z.of_nat (length (currentUrls value)) <=? 0) eqn:E;
      [done|].
    injection Hpick as <-. split; [done|].
    unfold onSuccess. rewrite slice0_fits; [done|].
    rewrite length_app. lia.
  - intros change Hphoto.
    destruct (maxImages <=? Z.of_nat (length (currentUrls value))) eqn:E;
      [done|].
    destruct url as [[|c rest]|]; try done.
    injection Hphoto as <-. exists (String c rest).
    split; [done|]. split; [done|].
    rewrite slice0_fits; [done|]. rewrite length_app. simpl. lia.
Qed.

Lemma guards_leave_room_witness :
  handlePickFromGallery multiple threeImages 5 = PickMultiple 2
  ∧ Z.of_nat (length ["d.jpg"; "e.jpg"]) ≤ 2
  ∧ onSuccess multiple threeImages 5 ["d.jpg"; "e.jpg"]
    = Some (Urls (currentUrls threeImages ++ ["d.jpg"; "e.jpg"])).
Proof.
  assert (Z.of_nat (length ["d.jpg"; "e.jpg"]) ≤ 2) as H by (simpl; lia).
  split; [reflexivity|]. split; [exact H|].
  exact (proj2 (proj1 (proj2 (proj2 (guards_leave_room threeImages 5 None)))
                  2 ["d.jpg"; "e.jpg"] eq_refl H)).
Defined.

(** X16.  Removing a rendered image in multiple mode takes out exactly
    the image at that index: the value is one shorter, the images before
    the index stay where they are and the images after it move up by one;
    an index past the end changes nothing.  In single mode the value
    becomes the empty string, which shows no image. *)
Theorem remove_image_takes_one (value : Value) (index : nat) :
  (index < length (currentUrls value) →
   ∃ rest,
     handleRemoveImage multiple value index = Urls rest
     ∧ S (length rest) = length (currentUrls value)
     ∧ (∀ j, j < index → rest !! j = currentUrls value !! j)
     ∧ (∀ j, index ≤ j → rest !! j = currentUrls value !! S j))%nat
  ∧ (length (currentUrls value) ≤ index →
     handleRemoveImage multiple value index = Urls (currentUrls value))%nat
  ∧ handleRemoveImage single value index = Url ""
  ∧ hasImages single (handleRemoveImage single value index) = false.
Proof.
  split; [|split; [|done]].
  - intros Hi. exists (delete index (currentUrls value)).
    split; [done|]. split; [|split].
    + rewrite length_delete by (by apply lookup_lt_is_Some). lia.
    + intros j Hj. by apply list_lookup_delete_lt.
    + intros j Hj. by apply list_lookup_delete_ge.
  - intros Hi. simpl. f_equal.
    rewrite delete_take_drop, take_ge, drop_ge by lia. apply app_nil_r.
Qed.

Lemma remove_image_takes_one_witness :
  (1 < length (currentUrls threeImages))%nat
  ∧ ∃ rest,
      handleRemoveImage multiple threeImages 1 = Urls rest
      ∧ S (length rest) = length (currentUrls threeImages)
      ∧ (∀ j, j < 1 → rest !! j = currentUrls threeImages !! j)%nat
      ∧ (∀ j, 1 ≤ j → rest !! j = currentUrls threeImages !! S j)%nat.
Proof.
  assert (1 < length (currentUrls threeImages))%nat as H by (simpl; lia).
  split; [exact H|].
  exact (proj1 (remove_image_takes_one threeImages 1) H).
Defined.

End Images.

(** ** Optimistic delete of a distributor *)

Section Distributors.
Import DistributorsScreen.
Context {Distributor : Type} (id : Distributor → string).

(** X17.  The optimistic delete shows the cached distributors without
    the deleted id, in their old order, and all of them when none has the
    id.  When the request fails, [onError] puts back exactly the list that
    was cached before, also an empty one; only when nothing was cached
    does the query keep the empty list that [onMutate] stored. *)
Theorem optimistic_delete_rolls_back (deletedId : string)
  (cache : option (list Distributor)) :
  (∃ shown,
     (onMutate id deletedId cache).1 = Some shown
     ∧ (∀ d, d ∈ shown → id d ≠ deletedId)
     ∧ (∀ old, cache = Some old →
               shown `sublist_of` old
               ∧ (∀ d, d ∈ old → id d ≠ deletedId → d ∈ shown)
               ∧ ((∀ d, d ∈ old → id d ≠ deletedId) → shown = old)))
  ∧ (∀ old, cache = Some old →
            onError (onMutate id deletedId cache).2
                    (onMutate id deletedId cache).1
            = Some old)
  ∧ (cache = None →
     onError (onMutate id deletedId cache).2 (onMutate id deletedId cache).1
     = Some []).
Proof.
  split; [|split].
  - destruct cache as [old|]; simpl.
    + exists (filter (λ d, id d ≠ deletedId) old). split; [done|]. split.
      * intros d Hd. by apply list_elem_of_filter in Hd as [? _].
      * intros ? [= <-]. split; [apply sublist_filter|]. split.
        -- intros d Hd Hne. by apply list_elem_of_filter.
        -- intros Hno. induction old as [|d old IH]; [done|].
           rewrite filter_cons_True by (apply Hno; left).
           f_equal. apply IH. intros d' Hd'. apply Hno. by right.
    + exists []. split; [done|]. split; [|done].
      intros d Hd. by apply elem_of_nil in Hd.
  - by intros old ->.
  - by intros ->.
Qed.

End Distributors.

Lemma optimistic_delete_rolls_back_witness :
  Some [("d1", "North"); ("d2", "South")] = Some [("d1", "North"); ("d2", "South")]
  ∧ DistributorsScreen.onError
      (DistributorsScreen.onMutate fst "d1"
         (Some [("d1", "North"); ("d2", "South")])).2
      (DistributorsScreen.onMutate fst "d1"
         (Some [("d1", "North"); ("d2", "South")])).1
    = Some [("d1", "North"); ("d2", "South")].
Proof.
  split; [reflexivity|].
  exact (proj1 (proj2 (optimistic_delete_rolls_back fst "d1"
                         (Some [("d1", "North"); ("d2", "South")])))
           _ eq_refl).
Defined.

(** ** The DocumentDB configuration *)

Section Infrastructure.
Import Terraform.

(** X18.  The DocumentDB cluster is configured consistently for every
    environment: the final snapshot has a name exactly when it is not
    skipped, and it is not skipped exactly when deletion protection is on;
    a protected cluster keeps backups for 7 days, any other for 1. *)
Theorem docdb_final_snapshot_consistent (environment : string) :
  (skip_final_snapshot environment = false
   ↔ is_Some (final_snapshot_identifier environment))
  ∧ deletion_protection environment = negb (skip_final_snapshot environment)
  ∧ backup_retention_period environment
    = (if deletion_protection environment then 7 else 1)
  ∧ (∀ name, final_snapshot_identifier environment = Some name →
             name = "alghazaly-production-docdb-final").
Proof.
  unfold skip_final_snapshot, final_snapshot_identifier, deletion_protection,
    backup_retention_period, isProduction.
  destruct (decide (environment = "production")) as [->|Hne].
  - rewrite bool_decide_eq_true_2 by done. simpl.
    split; [split; [eauto|done]|]. split; [done|]. split; [done|].
    by intros name [= <-].
  - rewrite bool_decide_eq_false_2 by done. simpl.
    split; [split; [done|by intros [? ?]]|]. split; [done|]. split; [done|].
    by intros name.
Qed.

Lemma append_cancel (prefix s1 s2 : string) :
  prefix +:+ s1 = prefix +:+ s2 → s1 = s2.
Proof.
  induction prefix as [|c prefix IH]; simpl; [done|].
  intros [= E]. by apply IH.
Qed.

Lemma instance_identifier_inj (environment : string) (i j : nat) :
  instance_identifier environment i = instance_identifier environment j →
  i = j.
Proof.
  unfold instance_identifier. intros E.
  apply append_cancel, append_cancel in E.
  apply (inj pretty) in E. lia.
Qed.

(** X19.  There is always at least one DocumentDB instance, two in
    production, and the instances of one environment get pairwise
    different identifiers, all starting with the cluster name. *)
Theorem docdb_instances_distinct (environment : string) :
  (1 ≤ instance_count environment ≤ 2)%nat
  ∧ length (instance_identifiers environment) = instance_count environment
  ∧ NoDup (instance_identifiers environment)
  ∧ ∀ i, i ∈ instance_identifiers environment →
         ∃ suffix, i = cluster_name environment +:+ suffix.
Proof.
  unfold instance_identifiers. split; [|split; [|split]].
  - unfold instance_count. destruct (isProduction environment); lia.
  - by rewrite length_fmap, length_seq.
  - apply NoDup_fmap_2_strong; [|apply NoDup_seq].
    intros i j _ _. apply instance_identifier_inj.
  - intros i Hi. apply list_elem_of_fmap in Hi as (k & -> & _).
    by eexists.
Qed.

End Infrastructure.

Lemma docdb_final_snapshot_consistent_witness :
  Terraform.final_snapshot_identifier "production"
  = Some "alghazaly-production-docdb-final"
  ∧ "alghazaly-production-docdb-final" = "alghazaly-production-docdb-final".
Proof.
  split; [reflexivity|].
  exact (proj2 (proj2 (proj2 (docdb_final_snapshot_consistent "production")))
           "alghazaly-production-docdb-final" eq_refl).
Defined.

Lemma docdb_instances_distinct_witness :
  "alghazaly-production-docdb-2" ∈ Terraform.instance_identifiers "production"
  ∧ ∃ suffix,
      "alghazaly-production-docdb-2"
      = Terraform.cluster_name "production" +:+ suffix.
Proof.
  assert ("alghazaly-production-docdb-2"
          ∈ Terraform.instance_identifiers "production") as H
    by (right; left).
  split; [exact H|].
  exact (proj2 (proj2 (proj2 (docdb_instances_distinct "production"))) _ H).
Defined.
